(** * ReviewScope: the review analyzer of [src/server/server.js]

    A shallow embedding of the [ReviewAnalyzer] class (URL resolution, review
    fetching, AI analysis with its validation step, and the fallback
    analysis), followed by the properties proved about it.

    Conventions of the embedding:
    - a JavaScript string is the list of its UTF-16 code units ([jsstring]);
    - a JavaScript number is an IEEE 754 binary64 value ([float]); array indices
      and lengths are [nat];
    - a computation that can throw has type [M A]: either the thrown exception
      or the value;
    - what the JavaScript runtime supplies and the repository does not define
      ([new URL], [String.prototype.toLowerCase], [Number::toString],
      [JSON.parse]) is the interface [Platform]; theorems hold for every
      platform, examples are evaluated on the instance [Node.platform]. *)

From Stdlib Require Import String Ascii Bool ZArith NArith Lia List.
From Stdlib Require Import PrimFloat FloatOps SpecFloat.
Import ListNotations.

(* ================================================================= *)
(** * Part I: the embedding *)
(* ================================================================= *)

(** ** The JavaScript fragment the program uses *)

Module Js.

(** *** Strings *)

Definition jsstring := list N.

Fixpoint js (s : string) : jsstring :=
  match s with
  | EmptyString => []
  | String c r => N_of_ascii c :: js r
  end.

(** [js'] reads an apostrophe of the literal as a double quote, for the
    literals of the source that contain double quotes. *)
Definition js' (s : string) : jsstring :=
  map (fun c => if (c =? 39)%N then 34%N else c) (js s).

Fixpoint str_eqb (a b : jsstring) : bool :=
  match a, b with
  | [], [] => true
  | x :: a', y :: b' => (x =? y)%N && str_eqb a' b'
  | _, _ => false
  end.

(** [s.startsWith(p)] *)
Fixpoint startsWith (s p : jsstring) {struct p} : bool :=
  match p, s with
  | [], _ => true
  | a :: p', b :: s' => (a =? b)%N && startsWith s' p'
  | _ :: _, [] => false
  end.

(** [s.endsWith(p)] *)
Definition endsWith (s p : jsstring) : bool :=
  startsWith (rev s) (rev p).

(** [s.includes(sub)] *)
Fixpoint includes (s sub : jsstring) : bool :=
  startsWith s sub ||
  match s with
  | [] => false
  | _ :: s' => includes s' sub
  end.

(** [s.substring(n)] for [n] within the string. *)
Definition substring_from (n : nat) (s : jsstring) : jsstring := skipn n s.

(** The code units [String.prototype.trim] removes and the regular
    expression class [\s] matches: WhiteSpace and LineTerminator. *)
Definition isWhiteSpace (c : N) : bool :=
  ((9 <=? c) && (c <=? 13) || (c =? 32) || (c =? 160) || (c =? 5760)
   || (8192 <=? c) && (c <=? 8202) || (c =? 8232) || (c =? 8233)
   || (c =? 8239) || (c =? 8287) || (c =? 12288) || (c =? 65279))%N.

(** The string without its longest prefix (suffix) of units in [p]. *)
Fixpoint drop_leading (p : N -> bool) (s : jsstring) : jsstring :=
  match s with
  | [] => []
  | c :: r => if p c then drop_leading p r else s
  end.

Fixpoint drop_trailing (p : N -> bool) (s : jsstring) : jsstring :=
  match s with
  | [] => []
  | c :: r =>
      match drop_trailing p r with
      | [] => if p c then [] else [c]
      | r' => c :: r'
      end
  end.

Definition trimStart (s : jsstring) : jsstring := drop_leading isWhiteSpace s.
Definition trimEnd (s : jsstring) : jsstring := drop_trailing isWhiteSpace s.

Definition trim (s : jsstring) : jsstring := trimEnd (trimStart s).

(** [s.split(sep)] for a one-unit separator. *)
Fixpoint split (s : jsstring) (sep : N) : list jsstring :=
  match s with
  | [] => [[]]
  | c :: r =>
      if (c =? sep)%N then [] :: split r sep
      else match split r sep with
           | [] => [[c]]
           | w :: ws => (c :: w) :: ws
           end
  end.

(** [parts.join(sep)] *)
Fixpoint join (parts : list jsstring) (sep : jsstring) : jsstring :=
  match parts with
  | [] => []
  | [p] => p
  | p :: ps => p ++ sep ++ join ps sep
  end.

(** [arr.indexOf(x)] on an array of strings; [None] stands for [-1]. *)
Fixpoint indexOf (arr : list jsstring) (x : jsstring) : option nat :=
  match arr with
  | [] => None
  | y :: r => if str_eqb y x then Some 0
              else option_map S (indexOf r x)
  end.

(** [s.replace(/\+/g, ' ')] *)
Definition replace_plus (s : jsstring) : jsstring :=
  map (fun c => if (c =? 43)%N then 32%N else c) s.

(** Truthiness of a string: [Boolean(s)]. *)
Definition nonempty (s : jsstring) : bool :=
  match s with [] => false | _ :: _ => true end.

(** A string that may be [undefined] or [null], when it is truthy. *)
Definition if_truthy (a : option jsstring) : option jsstring :=
  match a with
  | Some s => if nonempty s then Some s else None
  | None => None
  end.

(** Decimal digits of a natural number, as [String(n)] prints an integer. *)
Fixpoint uint_digits (u : Decimal.uint) : jsstring :=
  match u with
  | Decimal.Nil => []
  | Decimal.D0 r => 48%N :: uint_digits r
  | Decimal.D1 r => 49%N :: uint_digits r
  | Decimal.D2 r => 50%N :: uint_digits r
  | Decimal.D3 r => 51%N :: uint_digits r
  | Decimal.D4 r => 52%N :: uint_digits r
  | Decimal.D5 r => 53%N :: uint_digits r
  | Decimal.D6 r => 54%N :: uint_digits r
  | Decimal.D7 r => 55%N :: uint_digits r
  | Decimal.D8 r => 56%N :: uint_digits r
  | Decimal.D9 r => 57%N :: uint_digits r
  end.

Definition decimal (n : N) : jsstring := uint_digits (N.to_uint n).

(** *** Exceptions *)

Record exn := mkExn { exn_name : jsstring; message : jsstring }.

Definition Error (msg : jsstring) : exn := mkExn (js "Error") msg.
Definition TypeError (msg : jsstring) : exn := mkExn (js "TypeError") msg.
Definition URIError (msg : jsstring) : exn := mkExn (js "URIError") msg.
Definition SyntaxError (msg : jsstring) : exn := mkExn (js "SyntaxError") msg.

(** A computation that returns an [A] or throws. *)
Definition M (A : Type) : Type := (exn + A)%type.

Definition ret {A} (a : A) : M A := inr a.
Definition throw {A} (e : exn) : M A := inl e.
Definition bind {A B} (m : M A) (k : A -> M B) : M B :=
  match m with
  | inl e => inl e
  | inr a => k a
  end.

(** [try { body } catch (error) { handler }] *)
Definition try_catch {A} (body : M A) (handler : exn -> M A) : M A :=
  match body with
  | inl e => handler e
  | inr a => inr a
  end.

(** *** Numbers *)

(** The binary64 value nearest to an integer. *)
Definition Z2float (z : Z) : float :=
  SF2Prim (binary_normalize prec emax z 0 false).

(** An array length or index as a Number. *)
Definition Number_of_nat (n : nat) : float := Z2float (Z.of_nat n).

(** [Boolean(x)] for a Number: false for [0], [-0] and [NaN]. *)
Definition number_truthy (x : float) : bool :=
  negb (is_nan x || is_zero x).

(** [floor (num * 2^e + 1/2)], computed exactly. *)
Definition round_half_up (num e : Z) : Z :=
  if (0 <=? e)%Z then (num * 2 ^ e)%Z
  else let d := (2 ^ (- e))%Z in ((2 * num + d) / (2 * d))%Z.

(** The digits of [n / 10^f] with [f] fractional digits, [n >= 0]. *)
Definition fixed_point (n : Z) (f : nat) : jsstring :=
  let m := decimal (Z.to_N n) in
  match f with
  | O => m
  | S _ =>
      let m := repeat 48%N (S f - length m) ++ m in
      let k := length m in
      firstn (k - f) m ++ [46%N] ++ skipn (k - f) m
  end.

(** [m * 2^e >= 10^21] *)
Definition at_least_1e21 (m : positive) (e : Z) : bool :=
  if (0 <=? e)%Z then (10 ^ 21 <=? Zpos m * 2 ^ e)%Z
  else (10 ^ 21 * 2 ^ (- e) <=? Zpos m)%Z.

(** [x.toFixed(f)] (Number.prototype.toFixed, for [0 <= f <= 100]): the
    integer [n] with [n / 10^f] nearest to the exact value of [x], the larger
    one on a tie.  From [10^21] on the result is [Number::toString(x)], given
    as [toString]. *)
Definition toFixed (toString : float -> jsstring) (x : float) (f : nat)
  : jsstring :=
  match Prim2SF x with
  | S754_nan => js "NaN"
  | S754_infinity s => if s then js "-Infinity" else js "Infinity"
  | S754_zero _ => fixed_point 0 f
  | S754_finite s m e =>
      if at_least_1e21 m e then toString x
      else (if s then js "-" else []) ++
           fixed_point (round_half_up (Zpos m * 10 ^ Z.of_nat f) e) f
  end.

(** [Math.round]: the nearest integer, the one toward [+Infinity] on a tie;
    [-0] for a negative argument that rounds to zero. *)
Definition Math_round (x : float) : float :=
  match Prim2SF x with
  | S754_finite s m e =>
      if (0 <=? e)%Z then x
      else let n := round_half_up (if s then Zneg m else Zpos m) e in
           if (n =? 0)%Z then (if s then neg_zero else zero) else Z2float n
  | _ => x
  end.

(** *** Values *)

(** The values [JSON.parse] produces, which are also the values an analysis
    result is made of.  An object lists its own properties. *)
#[warnings="-register-all"]
Inductive JsValue : Type :=
| JNull
| JBool (b : bool)
| JNumber (x : float)
| JString (s : jsstring)
| JArray (items : list JsValue)
| JObject (props : list (jsstring * JsValue)).

(** [Boolean(v)], the test behind [v || d] and [if (v)]. *)
Definition truthy (v : JsValue) : bool :=
  match v with
  | JNull => false
  | JBool b => b
  | JNumber x => number_truthy x
  | JString s => nonempty s
  | JArray _ | JObject _ => true
  end.

Definition Array_isArray (v : JsValue) : bool :=
  match v with JArray _ => true | _ => false end.

(** [arr.length] of an array value. *)
Definition Array_length (v : JsValue) : option nat :=
  match v with JArray items => Some (length items) | _ => None end.

Fixpoint lookup (props : list (jsstring * JsValue)) (key : jsstring)
  : option JsValue :=
  match props with
  | [] => None
  | (k, v) :: r => if str_eqb k key then Some v else lookup r key
  end.

(** [v.key] for a key that no prototype defines (every key the program reads
    is such): [None] is [undefined]; reading a property of [null] throws. *)
Definition get (v : JsValue) (key : jsstring) : M (option JsValue) :=
  match v with
  | JNull => throw (TypeError (js "Cannot read properties of null"))
  | JObject props => ret (lookup props key)
  | _ => ret None
  end.

(** [a || d] where [a] may be [undefined]. *)
Definition or_else (a : option JsValue) (d : JsValue) : JsValue :=
  match a with
  | Some v => if truthy v then v else d
  | None => d
  end.

(** *** Percent-decoding and UTF-8 *)

Definition hexval (c : N) : option N :=
  if ((48 <=? c) && (c <=? 57))%N then Some (c - 48)%N
  else if ((65 <=? c) && (c <=? 70))%N then Some (c - 55)%N
  else if ((97 <=? c) && (c <=? 102))%N then Some (c - 87)%N
  else None.

(** UTF-16 code units of a code point. *)
Definition utf16_encode (cp : N) : jsstring :=
  if (cp <? 65536)%N then [cp]
  else let c := (cp - 65536)%N in [(55296 + c / 1024)%N; (56320 + c mod 1024)%N].

(** A string read for [decodeURIComponent]: plain code units, escapes [%XX],
    and a [%] that two hexadecimal digits do not follow. *)
Inductive token : Type :=
| Lit (c : N)
| Pct (b : N)
| Bad.

Fixpoint uri_tokens (s : jsstring) : list token :=
  match s with
  | [] => []
  | c :: r =>
      if (c =? 37)%N then
        match r with
        | h1 :: h2 :: r' =>
            match hexval h1, hexval h2 with
            | Some a, Some b => Pct (16 * a + b)%N :: uri_tokens r'
            | _, _ => [Bad]
            end
        | _ => [Bad]
        end
      else Lit c :: uri_tokens r
  end.

Definition is_continuation (b : N) : bool := ((128 <=? b) && (b <=? 191))%N.

Definition prepend (u : jsstring) (r : option jsstring) : option jsstring :=
  option_map (app u) r.

(** The decoding loop of [Decode] (ECMAScript 19.2.6): an escaped octet below
    128 is its character; a longer UTF-8 sequence must be escaped octet by
    octet and encode a code point in shortest form, no surrogate. *)
Fixpoint decode_tokens (ts : list token) : option jsstring :=
  match ts with
  | [] => Some []
  | Lit c :: r => prepend [c] (decode_tokens r)
  | Bad :: _ => None
  | Pct b :: r =>
      if (b <? 128)%N then prepend [b] (decode_tokens r)
      else if ((192 <=? b) && (b <? 224))%N then
        match r with
        | Pct b2 :: r2 =>
            let v := ((b mod 32) * 64 + b2 mod 64)%N in
            if is_continuation b2 && (128 <=? v)%N
            then prepend (utf16_encode v) (decode_tokens r2)
            else None
        | _ => None
        end
      else if ((224 <=? b) && (b <? 240))%N then
        match r with
        | Pct b2 :: Pct b3 :: r3 =>
            let v := (((b mod 16) * 64 + b2 mod 64) * 64 + b3 mod 64)%N in
            if is_continuation b2 && is_continuation b3 && (2048 <=? v)%N
               && negb ((55296 <=? v) && (v <=? 57343))%N
            then prepend (utf16_encode v) (decode_tokens r3)
            else None
        | _ => None
        end
      else if ((240 <=? b) && (b <? 248))%N then
        match r with
        | Pct b2 :: Pct b3 :: Pct b4 :: r4 =>
            let v := ((((b mod 8) * 64 + b2 mod 64) * 64 + b3 mod 64) * 64
                      + b4 mod 64)%N in
            if is_continuation b2 && is_continuation b3 && is_continuation b4
               && (65536 <=? v)%N && (v <=? 1114111)%N
            then prepend (utf16_encode v) (decode_tokens r4)
            else None
        | _ => None
        end
      else None
  end.

(** [decodeURIComponent(s)] *)
Definition decodeURIComponent (s : jsstring) : M jsstring :=
  match decode_tokens (uri_tokens s) with
  | Some r => ret r
  | None => throw (URIError (js "URI malformed"))
  end.

(** *** URLs and their query strings *)

(** What the program reads of a parsed URL: [hostname], [pathname] and
    [search] (the query with its leading [?], or the empty string). *)
Record URL := mkURL {
  hostname : jsstring;
  pathname : jsstring;
  search : jsstring
}.

Definition is_high_surrogate (c : N) : bool := ((55296 <=? c) && (c <=? 56319))%N.
Definition is_low_surrogate (c : N) : bool := ((56320 <=? c) && (c <=? 57343))%N.

(** The code points of a string; a lone surrogate reads as U+FFFD. *)
Fixpoint code_points (s : jsstring) : list N :=
  match s with
  | [] => []
  | c :: r =>
      if is_high_surrogate c then
        match r with
        | d :: r' =>
            if is_low_surrogate d
            then (65536 + (c - 55296) * 1024 + (d - 56320))%N :: code_points r'
            else 65533%N :: code_points r
        | [] => [65533%N]
        end
      else if is_low_surrogate c then 65533%N :: code_points r
      else c :: code_points r
  end.

Definition utf8_bytes (cp : N) : list N :=
  if (cp <? 128)%N then [cp]
  else if (cp <? 2048)%N then [(192 + cp / 64)%N; (128 + cp mod 64)%N]
  else if (cp <? 65536)%N then
    [(224 + cp / 4096)%N; (128 + (cp / 64) mod 64)%N; (128 + cp mod 64)%N]
  else [(240 + cp / 262144)%N; (128 + (cp / 4096) mod 64)%N;
        (128 + (cp / 64) mod 64)%N; (128 + cp mod 64)%N].

Definition utf8_encode (s : jsstring) : list N :=
  flat_map utf8_bytes (code_points s).

(** State of the UTF-8 decoder of the Encoding Standard: continuation bytes
    still needed, the code point so far, and the bounds of the next byte. *)
Record utf8_state := mkUtf8 {
  needed : nat;
  partial : N;
  lower : N;
  upper : N
}.

Definition utf8_idle : utf8_state := mkUtf8 0 0 128 191.

(** A byte read when no sequence is open: the code points it emits and the
    state it leaves. *)
Definition utf8_lead (b : N) : list N * utf8_state :=
  if (b <? 128)%N then ([b], utf8_idle)
  else if ((194 <=? b) && (b <=? 223))%N then
    ([], mkUtf8 1 (b mod 32) 128 191)
  else if ((224 <=? b) && (b <=? 239))%N then
    ([], mkUtf8 2 (b mod 16) (if (b =? 224)%N then 160 else 128)
                             (if (b =? 237)%N then 159 else 191))
  else if ((240 <=? b) && (b <=? 244))%N then
    ([], mkUtf8 3 (b mod 8) (if (b =? 240)%N then 144 else 128)
                            (if (b =? 244)%N then 143 else 191))
  else ([65533%N], utf8_idle).

(** UTF-8 decode without BOM, errors replaced by U+FFFD. *)
Fixpoint utf8_decode_from (st : utf8_state) (bs : list N) : list N :=
  match bs with
  | [] => match needed st with O => [] | S _ => [65533%N] end
  | b :: r =>
      match needed st with
      | O => let (out, st') := utf8_lead b in out ++ utf8_decode_from st' r
      | S n =>
          if ((lower st <=? b) && (b <=? upper st))%N then
            let cp := (partial st * 64 + b mod 64)%N in
            match n with
            | O => cp :: utf8_decode_from utf8_idle r
            | S _ => utf8_decode_from (mkUtf8 n cp 128 191) r
            end
          else
            let (out, st') := utf8_lead b in
            65533%N :: out ++ utf8_decode_from st' r
      end
  end.

Definition utf8_decode (bs : list N) : jsstring :=
  flat_map utf16_encode (utf8_decode_from utf8_idle bs).

(** Percent-decoding of a byte sequence (URL Standard): a [%] that two
    hexadecimal digits do not follow stays as it is. *)
Fixpoint percent_decode (bs : list N) : list N :=
  match bs with
  | [] => []
  | b :: r =>
      if (b =? 37)%N then
        match r with
        | h1 :: h2 :: r' =>
            match hexval h1, hexval h2 with
            | Some a, Some c => (16 * a + c)%N :: percent_decode r'
            | _, _ => b :: percent_decode r
            end
        | _ => b :: percent_decode r
        end
      else b :: percent_decode r
  end.

(** A name or a value of an [application/x-www-form-urlencoded] string:
    [+] becomes a space, then the bytes are percent-decoded and read as
    UTF-8. *)
Definition form_decode (bs : list N) : jsstring :=
  utf8_decode (percent_decode (replace_plus bs)).

Fixpoint split_at_equals (bs : list N) : list N * list N :=
  match bs with
  | [] => ([], [])
  | b :: r =>
      if (b =? 61)%N then ([], r)
      else let (n, v) := split_at_equals r in (b :: n, v)
  end.

(** The [application/x-www-form-urlencoded] parser. *)
Definition parse_urlencoded (query : jsstring) : list (jsstring * jsstring) :=
  flat_map
    (fun pair =>
       match pair with
       | [] => []
       | _ :: _ => let (n, v) := split_at_equals pair in
                   [(form_decode n, form_decode v)]
       end)
    (split (utf8_encode query) 38).

Fixpoint first_value (pairs : list (jsstring * jsstring)) (key : jsstring)
  : option jsstring :=
  match pairs with
  | [] => None
  | (k, v) :: r => if str_eqb k key then Some v else first_value r key
  end.

(** [urlObj.searchParams.get(key)]; [None] is [null]. *)
Definition searchParams_get (urlObj : URL) (key : jsstring) : option jsstring :=
  let query := match search urlObj with
               | 63%N :: q => q
               | q => q
               end in
  first_value (parse_urlencoded query) key.

(** *** The runtime *)

(** What the program takes from its runtime.  [URL_ctor] is [new URL(s)],
    which throws on an invalid URL and, by the URL Standard, ignores leading
    C0 control and space characters of its input. *)
Class Platform : Type := {
  URL_ctor : jsstring -> M URL;
  URL_ctor_leading : forall c s, (c <=? 32)%N = true ->
                                 URL_ctor (c :: s) = URL_ctor s;
  toLowerCase : jsstring -> jsstring;
  Number_toString : float -> jsstring;
  JSON_parse : jsstring -> M JsValue
}.

End Js.

Notation "x <- m ;; k" := (Js.bind m (fun x => k))
  (at level 61, m at next level, right associativity).

(** ** The analyzer *)

Module ReviewAnalyzer.
Import Js.

(** *** Data *)

Record Config := mkConfig { maxReviews : nat }.

(** [config.maxReviews] of the source; the API keys and the port play no
    part in the methods below. *)
Definition config : Config := mkConfig 50.

(** A text of the place-detail provider: [{ text }]. *)
Record LocalizedText := mkLocalizedText { lt_text : option jsstring }.

(** A review as the provider returns it; every field may be missing. *)
Record RawReview := mkRawReview {
  raw_text : option LocalizedText;
  raw_originalText : option LocalizedText;
  raw_rating : option float;
  raw_publishTime : option jsstring
}.

(** The body of the provider's response. *)
Record PlaceDetails := mkPlaceDetails {
  displayName : option LocalizedText;
  raw_reviews : option (list RawReview)
}.

(** The outcome of [fetch]: [response.ok], [response.status] and what
    [response.json()] resolves to. *)
Record Response := mkResponse {
  ok : bool;
  status : N;
  json : M PlaceDetails
}.

Record Review := mkReview {
  text : jsstring;
  rating : option float;
  time : option jsstring
}.

Record ReviewBatch := mkReviewBatch {
  name : option jsstring;
  reviews : list Review;
  totalFound : nat;
  totalAvailable : nat;
  limitApplied : bool
}.

Record AnalysisResult := mkAnalysisResult {
  overallSentiment : JsValue;
  topicSummaries : JsValue;
  keyInsights : JsValue;
  commonPhrases : JsValue;
  customerPainPoints : JsValue;
  positiveHighlights : JsValue;
  recommendations : JsValue
}.

(** A place of the place-search provider; the display name, the rating and
    the rating count may be missing. *)
Record PlaceJson := mkPlaceJson {
  place_id : jsstring;
  place_displayName : option LocalizedText;
  place_rating : option float;
  place_userRatingCount : option float
}.

(** The body of the search response: [{ places }]. *)
Record SearchData := mkSearchData { places : option (list PlaceJson) }.

(** The outcome of the search request: [response.ok], [response.status],
    and what [response.text()] and [response.json()] resolve to. *)
Record SearchResponse := mkSearchResponse {
  search_ok : bool;
  search_status : N;
  search_text : M jsstring;
  search_json : M SearchData
}.

(** What [findPlace] returns. *)
Record PlaceRecord := mkPlaceRecord {
  id : jsstring;
  place_name : jsstring;
  place_record_rating : option float;
  reviewCount : option float
}.

Section Methods.
Context {platform : Platform}.

(** *** [parseGoogleMapsUrl] *)

(** [decodeURIComponent(x).replace(/\+/g, ' ')], the expression every
    pattern applies to what it extracted. *)
Definition decode_name (x : jsstring) : M (option jsstring) :=
  decoded <- decodeURIComponent x ;;
  ret (Some (replace_plus decoded)).

(** The segment after the first [keyword] segment: [pathParts[idx + 1]]
    where [idx = pathParts.indexOf(keyword)], when both exist and the segment
    is truthy. *)
Definition segment_after (pathParts : list jsstring) (keyword : jsstring)
  : option jsstring :=
  match indexOf pathParts keyword with
  | Some idx =>
      if_truthy (nth_error pathParts (idx + 1))
  | None => None
  end.

(** [/maps/place/Place+Name] *)
Definition pattern_place (pathParts : list jsstring) : M (option jsstring) :=
  match segment_after pathParts (js "place") with
  | Some seg =>
      if negb (startsWith seg (js "@")) then decode_name seg else ret None
  | None => ret None
  end.

(** [/maps/search/Place+Name] *)
Definition pattern_search (pathParts : list jsstring) : M (option jsstring) :=
  match segment_after pathParts (js "search") with
  | Some seg => decode_name seg
  | None => ret None
  end.

(** [maps.app.goo.gl] format: the query parameter, or a placeholder. *)
Definition pattern_short (urlObj : URL) : M (option jsstring) :=
  if includes (hostname urlObj) (js "maps.app.goo.gl") then
    match if_truthy (searchParams_get urlObj (js "q")) with
    | Some q => decode_name q
    | None =>
        let path := pathname urlObj in
        if nonempty path && negb (str_eqb path (js "/"))
        then ret (Some (js "Location from Google Maps"))
        else ret None
    end
  else ret None.

(** [?q=Place+Name] *)
Definition pattern_q (urlObj : URL) : M (option jsstring) :=
  match if_truthy (searchParams_get urlObj (js "q")) with
  | Some q => decode_name q
  | None => ret None
  end.

Definition patterns (urlObj : URL) (pathParts : list jsstring)
  : list (M (option jsstring)) :=
  [ pattern_place pathParts; pattern_search pathParts;
    pattern_short urlObj; pattern_q urlObj ].

(** [for (const pattern of patterns) { const result = pattern();
    if (result) return result.trim(); }]: [Some] is the value returned from
    inside the loop, [None] a loop that ran to its end. *)
Fixpoint first_result (ps : list (M (option jsstring))) : M (option jsstring) :=
  match ps with
  | [] => ret None
  | pattern :: rest =>
      result <- pattern ;;
      match if_truthy result with
      | Some r => ret (Some (trim r))
      | None => first_result rest
      end
  end.

(** The [@] removal at the head of the method. *)
Definition cleanUrl (url : jsstring) : jsstring :=
  let cleanUrl := trim url in
  if startsWith cleanUrl (js "@") then substring_from 1 cleanUrl else cleanUrl.

Definition is_maps_host (host : jsstring) : bool :=
  includes host (js "google.com") || includes host (js "maps.google")
  || includes host (js "maps.app.goo.gl").

(** The body of the [try] block, from the parsed URL on. *)
Definition extract_place_name (urlObj : URL) : M jsstring :=
  if negb (is_maps_host (hostname urlObj))
  then throw (Error (js "Please provide a valid Google Maps URL"))
  else
    let pathParts := filter nonempty (split (pathname urlObj) 47) in
    found <- first_result (patterns urlObj pathParts) ;;
    match found with
    | Some placeName => ret placeName
    | None =>
        if includes (hostname urlObj) (js "maps.app.goo.gl")
        then ret (js "Google Maps Location")
        else throw (Error (js "Could not extract place name from this URL format"))
    end.

Definition parseGoogleMapsUrl (url : jsstring) : M jsstring :=
  try_catch
    (urlObj <- URL_ctor (cleanUrl url) ;;
     extract_place_name urlObj)
    (fun error =>
       if includes (message error) (js "Invalid URL")
       then throw (Error (js "Please provide a valid URL"))
       else throw error).

(** *** [findPlace] *)

(** [t?.text] *)
Definition optional_text (t : option LocalizedText) : option jsstring :=
  match t with
  | Some l => lt_text l
  | None => None
  end.

(** [a || d] for strings, [a] possibly [undefined]. *)
Definition str_or (a : option jsstring) (d : jsstring) : jsstring :=
  match if_truthy a with
  | Some s => s
  | None => d
  end.

(** [data.places?.[0]] *)
Definition first_place (data : SearchData) : option PlaceJson :=
  match places data with
  | Some (place :: _) => Some place
  | _ => None
  end.

Definition access_denied : exn :=
  Error (js "Google Places API access denied. Check your API key and billing settings.").

(** [search] is the text-search request for a query (at most one result is
    asked for); on a response that is not ok the method reads the body as
    text first, for the log. *)
Definition findPlace (search : jsstring -> M SearchResponse) (query : jsstring)
  : M PlaceRecord :=
  response <- search query ;;
  if negb (search_ok response) then
    errorText <- search_text response ;;
    if (search_status response =? 403)%N then throw access_denied
    else throw (Error (js "Failed to find place: "
                       ++ decimal (search_status response)))
  else
    data <- search_json response ;;
    match first_place data with
    | None =>
        throw (Error (js' "No results found for '" ++ query
                      ++ js' "'. Try a more specific search term."))
    | Some place =>
        ret {| id := place_id place;
               place_name := str_or (optional_text (place_displayName place)) query;
               place_record_rating := place_rating place;
               reviewCount := place_userRatingCount place |}
    end.

(** *** [getPlaceReviews] *)

(** The mapping applied to each raw review. *)
Definition map_review (review : RawReview) : Review :=
  {| text := str_or (optional_text (raw_text review))
                    (str_or (optional_text (raw_originalText review)) []);
     rating := raw_rating review;
     time := raw_publishTime review |}.

(** [data.reviews || []] *)
Definition reviews_or_empty (data : PlaceDetails) : list RawReview :=
  match raw_reviews data with
  | Some l => l
  | None => []
  end.

(** Filter out very short reviews. *)
Definition substantial (review : Review) : bool :=
  10 <? length (text review).

(** The method from the parsed body on; [cfg] is the module's [config]. *)
Definition reviews_of (cfg : Config) (data : PlaceDetails) : M ReviewBatch :=
  let totalAvailableReviews := length (reviews_or_empty data) in
  let reviews :=
    firstn (maxReviews cfg)
           (filter substantial (map map_review (reviews_or_empty data))) in
  if length reviews =? 0
  then throw (Error (js "No substantial reviews found for this place."))
  else ret {| name := optional_text (displayName data);
              reviews := reviews;
              totalFound := length reviews;
              totalAvailable := totalAvailableReviews;
              limitApplied := maxReviews cfg <? totalAvailableReviews |}.

(** [fetch] is the request to the place-detail provider, which may fail
    before any response arrives. *)
Definition getPlaceReviews (cfg : Config) (fetch : jsstring -> M Response)
  (placeId : jsstring) : M ReviewBatch :=
  response <- fetch (js "https://places.googleapis.com/v1/places/" ++ placeId) ;;
  if negb (ok response)
  then throw (Error (js "Failed to get reviews: " ++ decimal (status response)))
  else
    data <- json response ;;
    reviews_of cfg data.

(** *** [generateFallbackAnalysis] *)

(** [r.rating || 0] *)
Definition rating_or_0 (r : Review) : float :=
  match rating r with
  | Some x => if number_truthy x then x else 0%float
  | None => 0%float
  end.

Definition totalRating (reviews : list Review) : float :=
  fold_left (fun sum r => PrimFloat.add sum (rating_or_0 r)) reviews 0%float.

Definition avgRating (reviews : list Review) : float :=
  PrimFloat.div (totalRating reviews) (Number_of_nat (length reviews)).

Definition positiveReviews (reviews : list Review) : nat :=
  length (filter (fun r => PrimFloat.leb 4 (rating_or_0 r)) reviews).

Definition negativeReviews (reviews : list Review) : nat :=
  length (filter (fun r => PrimFloat.leb (rating_or_0 r) 2) reviews).

(** The two counts are array lengths, on which the comparisons of the
    source are exact. *)
Definition sentiment (reviews : list Review) : jsstring :=
  if negativeReviews reviews * 2 <? positiveReviews reviews then js "positive"
  else if positiveReviews reviews * 2 <? negativeReviews reviews then js "negative"
  else js "mixed".

Definition commonWords : list jsstring :=
  [js "great"; js "good"; js "excellent"; js "amazing"; js "love"; js "best";
   js "perfect"].

Definition negativeWords : list jsstring :=
  [js "bad"; js "terrible"; js "awful"; js "worst"; js "hate";
   js "disappointing"].

Definition allText (reviews : list Review) : jsstring :=
  join (map (fun r => toLowerCase (text r)) reviews) (js " ").

Definition foundPositive (reviews : list Review) : list jsstring :=
  filter (fun word => includes (allText reviews) word) commonWords.

Definition foundNegative (reviews : list Review) : list jsstring :=
  filter (fun word => includes (allText reviews) word) negativeWords.

Definition count_text (n : nat) : jsstring := decimal (N.of_nat n).

(** [Math.round((positiveReviews / reviews.length) * 100)] *)
Definition positive_percent (reviews : list Review) : float :=
  Math_round
    (PrimFloat.mul
       (PrimFloat.div (Number_of_nat (positiveReviews reviews))
                      (Number_of_nat (length reviews)))
       100%float).

Definition avg_text (reviews : list Review) : jsstring :=
  toFixed Number_toString (avgRating reviews) 1.

Definition generateFallbackAnalysis (placeName : option jsstring)
  (reviews : list Review) : AnalysisResult :=
  {| overallSentiment := JString (sentiment reviews);
     topicSummaries :=
       JArray
         [ JObject
             [ (js "topic", JString (js "Overall Experience"));
               (js "summary",
                JString
                  (js "Based on " ++ count_text (length reviews)
                   ++ js " reviews with an average rating of "
                   ++ avg_text reviews ++ js "/5 stars. "
                   ++ count_text (positiveReviews reviews)
                   ++ js " positive reviews vs "
                   ++ count_text (negativeReviews reviews)
                   ++ js " negative reviews."));
               (js "mentionCount", JNumber (Number_of_nat (length reviews))) ] ];
     keyInsights :=
       JArray
         [ JString (js "Average rating: " ++ avg_text reviews ++ js "/5 stars");
           JString (Number_toString (positive_percent reviews)
                    ++ js "% of reviews are positive (4+ stars)");
           JString (js "Analyzed " ++ count_text (length reviews)
                    ++ js " customer reviews for patterns and sentiment") ];
     commonPhrases :=
       JArray
         (if 0 <? length (foundPositive reviews)
          then map JString (firstn 5 (foundPositive reviews))
          else [JString (js "N/A")]);
     customerPainPoints :=
       JArray
         (if 0 <? length (foundNegative reviews)
          then map JString (firstn 3 (foundNegative reviews))
          else [JString (js "No major pain points identified")]);
     positiveHighlights :=
       JArray
         (if 0 <? length (foundPositive reviews)
          then [JString (js "Customers frequently mention: "
                         ++ join (foundPositive reviews) (js ", "))]
          else [JString (js "Generally positive customer feedback")]);
     recommendations :=
       JArray
         [ JString (js "Run a full AI analysis for detailed insights");
           JString (if PrimFloat.ltb (avgRating reviews) 3.5%float
                    then js "Focus on addressing customer concerns"
                    else js "Continue maintaining quality standards") ] |}.

(** *** [analyzeReviews] *)

Definition show_rating (r : option float) : jsstring :=
  match r with
  | Some x => Number_toString x
  | None => js "undefined"
  end.

Definition show_name (placeName : option jsstring) : jsstring :=
  match placeName with
  | Some s => s
  | None => js "undefined"
  end.

Definition newline : jsstring := [10%N].

Definition reviewTexts (reviews : list Review) : jsstring :=
  join (map (fun r => js "Rating: " ++ show_rating (rating r) ++ js "/5 - "
                      ++ text r)
            (firstn 20 reviews))
       (newline ++ js "---" ++ newline).

Definition prompt (placeName : option jsstring) (reviews : list Review)
  : jsstring :=
  js' "Analyze these customer reviews for '" ++ show_name placeName
  ++ js' "' and provide insights in JSON format.

REVIEWS:
" ++ reviewTexts reviews ++ js' "

Provide your analysis in this exact JSON structure:
{
  'overallSentiment': 'positive',
  'topicSummaries': [
    {
      'topic': 'Service Quality',
      'summary': 'Brief summary of what customers say about service',
      'mentionCount': 8
    }
  ],
  'keyInsights': [
    'Most important insight from the reviews',
    'Second important insight'
  ],
  'commonPhrases': ['great food', 'friendly staff'],
  'customerPainPoints': ['long wait times', 'expensive prices'],
  'positiveHighlights': ['excellent service', 'delicious food'],
  'recommendations': ['Improve wait times', 'Consider more vegetarian options']
}

Focus on the most mentioned topics (food, service, atmosphere, value, etc.). Keep summaries brief and actionable.".

(** [s.replace(/tag\s*/, '')]: the first occurrence of [tag] and the white
    space after it. *)
Fixpoint remove_first (s tag : jsstring) {struct s} : jsstring :=
  if startsWith s tag then trimStart (skipn (length tag) s)
  else match s with
       | [] => []
       | c :: r => c :: remove_first r tag
       end.

(** [s.replace(/\s*```$/, '')]: a closing fence at the very end and the white
    space before it. *)
Definition remove_closing_fence (s : jsstring) : jsstring :=
  if endsWith s (js "```") then trimEnd (firstn (length s - 3) s) else s.

(** Clean up the response - remove markdown formatting. *)
Definition cleanResponse (responseText : jsstring) : jsstring :=
  let cleanResponse := trim responseText in
  let cleanResponse :=
    if startsWith cleanResponse (js "```json")
    then remove_closing_fence (remove_first cleanResponse (js "```json"))
    else cleanResponse in
  if startsWith cleanResponse (js "```")
  then remove_closing_fence (remove_first cleanResponse (js "```"))
  else cleanResponse.

(** The longest prefix that ends in a closing brace. *)
Fixpoint upto_last_close (s : jsstring) : option jsstring :=
  match s with
  | [] => None
  | c :: r =>
      match upto_last_close r with
      | Some p => Some (c :: p)
      | None => if (c =? 125)%N then Some [c] else None
      end
  end.

(** [s.match(/\{[\s\S]*\}/)]: from the first opening brace to the last
    closing brace after it; [None] is [null]. *)
Fixpoint jsonMatch (s : jsstring) : option jsstring :=
  match s with
  | [] => None
  | c :: r =>
      if (c =? 123)%N then
        match upto_last_close r with
        | Some body => Some (c :: body)
        | None => jsonMatch r
        end
      else jsonMatch r
  end.

(** [Array.isArray(a) ? a : []] *)
Definition array_or_empty (a : option JsValue) : JsValue :=
  match a with
  | Some v => if Array_isArray v then v else JArray []
  | None => JArray []
  end.

(** Validate and fix structure. *)
Definition validatedAnalysis (analysis : JsValue) : M AnalysisResult :=
  sentiment <- get analysis (js "overallSentiment") ;;
  topics <- get analysis (js "topicSummaries") ;;
  insights <- get analysis (js "keyInsights") ;;
  phrases <- get analysis (js "commonPhrases") ;;
  pains <- get analysis (js "customerPainPoints") ;;
  highlights <- get analysis (js "positiveHighlights") ;;
  recs <- get analysis (js "recommendations") ;;
  ret {| overallSentiment := or_else sentiment (JString (js "mixed"));
         topicSummaries := array_or_empty topics;
         keyInsights := array_or_empty insights;
         commonPhrases := array_or_empty phrases;
         customerPainPoints := array_or_empty pains;
         positiveHighlights := array_or_empty highlights;
         recommendations := array_or_empty recs |}.

(** The body of the [try] block.  [ai] is the generative provider: the call
    [generateContent(prompt)] followed by [result.response.text()], either of
    which may throw. *)
Definition primary_analysis (ai : jsstring -> M jsstring)
  (placeName : option jsstring) (reviews : list Review) : M AnalysisResult :=
  responseText <- ai (prompt placeName reviews) ;;
  match jsonMatch (cleanResponse responseText) with
  | None => ret (generateFallbackAnalysis placeName reviews)
  | Some matched =>
      analysis <- JSON_parse matched ;;
      validatedAnalysis analysis
  end.

Definition analyzeReviews (ai : jsstring -> M jsstring)
  (placeName : option jsstring) (reviews : list Review) : M AnalysisResult :=
  try_catch
    (primary_analysis ai placeName reviews)
    (fun error => ret (generateFallbackAnalysis placeName reviews)).

End Methods.
End ReviewAnalyzer.

(** ** The route [POST /api/analyze] *)

Module Server.
Import Js ReviewAnalyzer.

(** The JSON bodies the route sends. *)
Inductive Body : Type :=
| MissingUrl (error hint : jsstring)
| Failure (error timestamp : jsstring)
| Success (name : jsstring) (rating reviewCount : option float)
          (reviewsAnalyzed totalFound totalAvailable : nat)
          (limitApplied : bool) (analysis : AnalysisResult).

Record HttpResponse := mkHttpResponse {
  http_status : N;
  body : Body
}.

Section Route.
Context {platform : Platform}.

(** The three providers and the clock ([new Date().toISOString()]). *)
Variable search : jsstring -> M SearchResponse.
Variable fetch : jsstring -> M Response.
Variable ai : jsstring -> M jsstring.
Variable now : jsstring.

(** The four steps of the [try] block. *)
Definition pipeline (url : jsstring) : M (PlaceRecord * ReviewBatch * AnalysisResult) :=
  placeName <- parseGoogleMapsUrl url ;;
  place <- findPlace search placeName ;;
  reviewData <- getPlaceReviews config fetch (id place) ;;
  analysis <- analyzeReviews ai (name reviewData) (reviews reviewData) ;;
  ret (place, reviewData, analysis).

(** The handler, for a request with a JSON body whose [url] is a string or
    is missing.  It returns the response and the new value of
    [global.reviewData], of which [stash] is the old one. *)
Definition analyze_route (stash : option ReviewBatch) (url : option jsstring)
  : HttpResponse * option ReviewBatch :=
  match if_truthy url with
  | None =>
      (mkHttpResponse 400 (MissingUrl (js "URL is required")
                                      (js "Please provide a Google Maps URL")),
       stash)
  | Some url =>
      match pipeline url with
      | inr (place, reviewData, analysis) =>
          (mkHttpResponse 200
             (Success (place_name place) (place_record_rating place)
                      (reviewCount place) (totalFound reviewData)
                      (totalFound reviewData) (totalAvailable reviewData)
                      (limitApplied reviewData) analysis),
           Some reviewData)
      | inl error =>
          (mkHttpResponse 400 (Failure (message error) now), stash)
      end
  end.

End Route.
End Server.

(** ** A reference runtime *)

(** [Node.platform] gives the four runtime functions as executable
    definitions, after the standards Node.js implements (ECMAScript for
    [Number::toString] and [JSON.parse], the URL Standard for [new URL]).
    Their scope:
    - [toLowerCase] maps the letters of Basic Latin and Latin-1; other
      cased letters are left as they are;
    - [URL_parse] covers the inputs with no scheme (rejected, as by Node.js)
      and the http, https, ws, wss and ftp URLs whose host is an ASCII domain
      name; it rejects every other input, of which Node.js accepts some
      (other schemes, percent-encoded, internationalised and numeric hosts);
    - [Number_toString] and [JSON_parse] cover every input. *)

Module Node.
Import Js.

(** *** [String.prototype.toLowerCase] *)

Definition lower_unit (c : N) : N :=
  if ((65 <=? c) && (c <=? 90))%N then (c + 32)%N
  else if ((192 <=? c) && (c <=? 222) && negb (c =? 215))%N then (c + 32)%N
  else c.

Definition toLowerCase (s : jsstring) : jsstring := map lower_unit s.

(** *** Decimal literals and [Number::toString] *)

(** The binary64 value nearest to [s * 10^p], ties to even, [s > 0]. *)
Definition dec2float (s : positive) (p : Z) : float :=
  if (0 <=? p)%Z
  then SF2Prim (binary_normalize prec emax (Zpos s * 10 ^ p) 0 false)
  else SF2Prim (SFdiv prec emax (S754_finite false s 0)
                      (S754_finite false (Z.to_pos (10 ^ (- p))) 0)).

Definition digits_of (z : Z) : jsstring := decimal (Z.to_N z).

(** The [n] with [10^(n-1) <= a / b < 10^n], for positive [a] and [b]. *)
Definition decimal_exponent (a b : Z) : Z :=
  if (b <=? a)%Z then Z.of_nat (length (digits_of (a / b)))
  else let d := Z.of_nat (length (digits_of (b / a))) in
       if (b <=? a * 10 ^ (d - 1))%Z then 2 - d else 1 - d.

(** The candidates with [k] digits for the value [a / b] of [x]: the
    [(s, n)] with [s * 10^(n-k)] just below and just above, the nearer one
    first (the even one on a tie), kept when they read back as [x]. *)
Definition candidates (x : float) (a b n k : Z) : list (Z * Z) :=
  let num := if (0 <=? k - n)%Z then (a * 10 ^ (k - n))%Z else a in
  let den := if (0 <=? k - n)%Z then b else (b * 10 ^ (n - k))%Z in
  let lo := (num / den)%Z in
  let r := (num mod den)%Z in
  let below := (lo, n) in
  let above := if (lo + 1 =? 10 ^ k)%Z then (10 ^ (k - 1), n + 1)%Z
               else (lo + 1, n)%Z in
  let above_first :=
    match (2 * r ?= den)%Z with
    | Gt => true
    | Lt => false
    | Eq => Z.odd lo
    end in
  filter (fun c : Z * Z =>
            let (s, n') := c in
            (0 <? s)%Z && PrimFloat.eqb (dec2float (Z.to_pos s) (n' - k)) x)
         (if above_first then [above; below] else [below; above]).

(** The shortest digit string that reads back as [x]: [(s, n, k)]. *)
Fixpoint shortest (x : float) (a b n : Z) (k : Z) (fuel : nat) : Z * Z * Z :=
  match fuel with
  | O => (a / b, n, k)%Z
  | S fuel' =>
      match candidates x a b n k with
      | (s, n') :: _ => (s, n', k)
      | [] => shortest x a b n (k + 1) fuel'
      end
  end.

Definition zeros (n : Z) : jsstring := repeat 48%N (Z.to_nat n).

(** The layout of [Number::toString] for the digits [s] ([k] of them) and
    the exponent [n]. *)
Definition layout (s n k : Z) : jsstring :=
  let ds := digits_of s in
  if ((k <=? n) && (n <=? 21))%Z then ds ++ zeros (n - k)
  else if ((0 <? n) && (n <=? 21))%Z then
    firstn (Z.to_nat n) ds ++ [46%N] ++ skipn (Z.to_nat n) ds
  else if ((-6 <? n) && (n <=? 0))%Z then
    js "0." ++ zeros (- n) ++ ds
  else
    let e := (n - 1)%Z in
    let exponent := (if (e <? 0)%Z then js "e-" else js "e+")
                    ++ digits_of (Z.abs e) in
    match ds with
    | [d] => [d] ++ exponent
    | d :: rest => [d] ++ [46%N] ++ rest ++ exponent
    | [] => exponent
    end.

Definition Number_toString (x : float) : jsstring :=
  match Prim2SF x with
  | S754_nan => js "NaN"
  | S754_zero _ => js "0"
  | S754_infinity s => if s then js "-Infinity" else js "Infinity"
  | S754_finite sign m e =>
      let a := if (0 <=? e)%Z then (Zpos m * 2 ^ e)%Z else Zpos m in
      let b := if (0 <=? e)%Z then 1%Z else (2 ^ (- e))%Z in
      let '(s, n, k) := shortest (PrimFloat.abs x) a b (decimal_exponent a b) 1 17 in
      (if sign then js "-" else []) ++ layout s n k
  end.

(** *** [JSON.parse] *)

Definition is_json_space (c : N) : bool :=
  ((c =? 32) || (c =? 9) || (c =? 10) || (c =? 13))%N.

Definition skip_space (s : jsstring) : jsstring := drop_leading is_json_space s.

Definition is_digit (c : N) : bool := ((48 <=? c) && (c <=? 57))%N.

Fixpoint span_digits (s : jsstring) : jsstring * jsstring :=
  match s with
  | [] => ([], [])
  | c :: r =>
      if is_digit c then let (d, rest) := span_digits r in (c :: d, rest)
      else ([], s)
  end.

Definition digits_value (ds : jsstring) : Z :=
  fold_left (fun acc c => (acc * 10 + (Z.of_N c - 48))%Z) ds 0%Z.

(** The Number a literal denotes: digits [ds] scaled by [10^p]. *)
Definition literal_value (negative : bool) (ds : jsstring) (p : Z) : float :=
  let s := digits_value ds in
  let magnitude :=
    match s with
    | Zpos q =>
        let size := (p + Z.of_nat (length (digits_of s)))%Z in
        if (400 <? size)%Z then infinity
        else if (size <? -400)%Z then zero
        else dec2float q p
    | _ => zero
    end in
  if negative then PrimFloat.opp magnitude else magnitude.

(** The exponent part of a number, read as an integer. *)
Definition parse_exponent (s : jsstring) : option (Z * jsstring) :=
  match s with
  | c :: r =>
      if ((c =? 101) || (c =? 69))%N then
        let '(negative, r1) :=
          match r with
          | sg :: r' => if (sg =? 45)%N then (true, r')
                        else if (sg =? 43)%N then (false, r')
                        else (false, r)
          | [] => (false, r)
          end in
        match span_digits r1 with
        | ([], _) => None
        | (ds, rest) =>
            Some ((if negative then - digits_value ds else digits_value ds)%Z, rest)
        end
      else Some (0%Z, s)
  | [] => Some (0%Z, s)
  end.

Definition parse_number (s : jsstring) : option (JsValue * jsstring) :=
  let '(negative, s1) :=
    match s with
    | c :: r => if (c =? 45)%N then (true, r) else (false, s)
    | [] => (false, s)
    end in
  match span_digits s1 with
  | ([], _) => None
  | ((d :: more) as int, s2) =>
      if (d =? 48)%N && nonempty more then None
      else
        let fraction :=
          match s2 with
          | c :: r =>
              if (c =? 46)%N then
                match span_digits r with
                | ([], _) => None
                | (f, rest) => Some (f, rest)
                end
              else Some ([], s2)
          | [] => Some ([], s2)
          end in
        match fraction with
        | None => None
        | Some (f, s3) =>
            match parse_exponent s3 with
            | None => None
            | Some (e, rest) =>
                Some (JNumber (literal_value negative (int ++ f)
                                 (e - Z.of_nat (length f))), rest)
            end
        end
  end.

Definition simple_escape (e : N) : option N :=
  if (e =? 34)%N then Some 34%N
  else if (e =? 92)%N then Some 92%N
  else if (e =? 47)%N then Some 47%N
  else if (e =? 98)%N then Some 8%N
  else if (e =? 102)%N then Some 12%N
  else if (e =? 110)%N then Some 10%N
  else if (e =? 114)%N then Some 13%N
  else if (e =? 116)%N then Some 9%N
  else None.

Definition cons_unit (c : N) (r : option (jsstring * jsstring))
  : option (jsstring * jsstring) :=
  match r with
  | Some (str, rest) => Some (c :: str, rest)
  | None => None
  end.

(** A string from after its opening quote. *)
Fixpoint parse_string (s : jsstring) : option (jsstring * jsstring) :=
  match s with
  | [] => None
  | c :: r =>
      if (c =? 34)%N then Some ([], r)
      else if (c =? 92)%N then
        match r with
        | [] => None
        | e :: r1 =>
            if (e =? 117)%N then
              match r1 with
              | h1 :: h2 :: h3 :: h4 :: r2 =>
                  match hexval h1, hexval h2, hexval h3, hexval h4 with
                  | Some a, Some b, Some c', Some d =>
                      cons_unit (((a * 16 + b) * 16 + c') * 16 + d)%N
                                (parse_string r2)
                  | _, _, _, _ => None
                  end
              | _ => None
              end
            else
              match simple_escape e with
              | Some u => cons_unit u (parse_string r1)
              | None => None
              end
        end
      else if (c <? 32)%N then None
      else cons_unit c (parse_string r)
  end.

(** A property defined twice keeps its place and takes the later value. *)
Fixpoint set_prop (props : list (jsstring * JsValue)) (key : jsstring)
  (v : JsValue) : list (jsstring * JsValue) :=
  match props with
  | [] => [(key, v)]
  | (k, old) :: r =>
      if str_eqb k key then (k, v) :: r else (k, old) :: set_prop r key v
  end.

(** The next unit after white space, when it is [c]. *)
Definition expect (c : N) (s : jsstring) : option jsstring :=
  match skip_space s with
  | d :: r => if (d =? c)%N then Some r else None
  | [] => None
  end.

Fixpoint parse_value (fuel : nat) (s : jsstring) {struct fuel}
  : option (JsValue * jsstring) :=
  match fuel with
  | O => None
  | S fuel' =>
      match skip_space s with
      | [] => None
      | (c :: r) as s' =>
          if (c =? 123)%N then
            match expect 125 r with
            | Some rest => Some (JObject [], rest)
            | None => parse_members fuel' r []
            end
          else if (c =? 91)%N then
            match expect 93 r with
            | Some rest => Some (JArray [], rest)
            | None => parse_elements fuel' r []
            end
          else if (c =? 34)%N then
            match parse_string r with
            | Some (str, rest) => Some (JString str, rest)
            | None => None
            end
          else if startsWith s' (js "true") then Some (JBool true, skipn 4 s')
          else if startsWith s' (js "false") then Some (JBool false, skipn 5 s')
          else if startsWith s' (js "null") then Some (JNull, skipn 4 s')
          else parse_number s'
      end
  end

with parse_elements (fuel : nat) (s : jsstring) (acc : list JsValue)
  {struct fuel} : option (JsValue * jsstring) :=
  match fuel with
  | O => None
  | S fuel' =>
      match parse_value fuel' s with
      | None => None
      | Some (v, r) =>
          match expect 44 r with
          | Some rest => parse_elements fuel' rest (v :: acc)
          | None =>
              match expect 93 r with
              | Some rest => Some (JArray (rev (v :: acc)), rest)
              | None => None
              end
          end
      end
  end

with parse_members (fuel : nat) (s : jsstring)
  (acc : list (jsstring * JsValue)) {struct fuel}
  : option (JsValue * jsstring) :=
  match fuel with
  | O => None
  | S fuel' =>
      match expect 34 s with
      | None => None
      | Some r =>
          match parse_string r with
          | None => None
          | Some (key, r1) =>
              match expect 58 r1 with
              | None => None
              | Some r2 =>
                  match parse_value fuel' r2 with
                  | None => None
                  | Some (v, r3) =>
                      let acc' := set_prop acc key v in
                      match expect 44 r3 with
                      | Some rest => parse_members fuel' rest acc'
                      | None =>
                          match expect 125 r3 with
                          | Some rest => Some (JObject acc', rest)
                          | None => None
                          end
                      end
                  end
              end
          end
      end
  end.

(** Every call of the three parsers starts at a position of its own, so
    twice the length bounds their nesting. *)
Definition JSON_parse (text : jsstring) : M JsValue :=
  match parse_value (2 * length text + 2) text with
  | Some (v, rest) =>
      match skip_space rest with
      | [] => ret v
      | _ :: _ => throw (SyntaxError (js "Unexpected non-whitespace character after JSON"))
      end
  | None => throw (SyntaxError (js "Unexpected token in JSON"))
  end.

(** *** [new URL] *)

Definition is_c0_or_space (c : N) : bool := (c <=? 32)%N.

Definition is_tab_or_newline (c : N) : bool :=
  ((c =? 9) || (c =? 10) || (c =? 13))%N.

Definition is_alpha (c : N) : bool :=
  ((65 <=? c) && (c <=? 90) || (97 <=? c) && (c <=? 122))%N.

Definition ascii_lower (c : N) : N :=
  if ((65 <=? c) && (c <=? 90))%N then (c + 32)%N else c.

Definition is_slash (c : N) : bool := ((c =? 47) || (c =? 92))%N.

(** The prefix before the first unit in [stop], and the rest from it on. *)
Fixpoint span_until (stop : N -> bool) (s : jsstring) : jsstring * jsstring :=
  match s with
  | [] => ([], [])
  | c :: r =>
      if stop c then ([], s)
      else let (a, b) := span_until stop r in (c :: a, b)
  end.

(** Scheme state: letters, digits, [+], [-] and [.] up to a colon. *)
Fixpoint scheme_state (s : jsstring) : option (jsstring * jsstring) :=
  match s with
  | [] => None
  | c :: r =>
      if (c =? 58)%N then Some ([], r)
      else if (is_alpha c || is_digit c || (c =? 43) || (c =? 45) || (c =? 46))%N
      then match scheme_state r with
           | Some (scheme, rest) => Some (ascii_lower c :: scheme, rest)
           | None => None
           end
      else None
  end.

(** Scheme start state: a scheme begins with a letter. *)
Definition parse_scheme (s : jsstring) : option (jsstring * jsstring) :=
  match s with
  | c :: _ => if is_alpha c then scheme_state s else None
  | [] => None
  end.

Definition is_special (scheme : jsstring) : bool :=
  str_eqb scheme (js "http") || str_eqb scheme (js "https")
  || str_eqb scheme (js "ws") || str_eqb scheme (js "wss")
  || str_eqb scheme (js "ftp").

Definition hex_digit (n : N) : N := if (n <? 10)%N then (48 + n)%N else (55 + n)%N.

Definition percent_encode_byte (b : N) : jsstring :=
  [37%N; hex_digit (b / 16); hex_digit (b mod 16)].

(** The query percent-encode set: C0 controls, everything above [~], space
    and the four delimiters. *)
Definition in_query_set (c : N) : bool :=
  ((c <? 32) || (126 <? c) || (c =? 32) || (c =? 34) || (c =? 35)
   || (c =? 60) || (c =? 62))%N.

Definition in_special_query_set (c : N) : bool :=
  in_query_set c || (c =? 39)%N.

Definition in_path_set (c : N) : bool :=
  (in_query_set c || (c =? 63) || (c =? 94) || (c =? 96) || (c =? 123)
   || (c =? 125))%N.

(** UTF-8 percent-encode the code points of [s] that are in [set]. *)
Definition percent_encode (set : N -> bool) (s : jsstring) : jsstring :=
  flat_map (fun cp => if set cp then flat_map percent_encode_byte (utf8_bytes cp)
                      else [cp])
           (code_points s).

Definition is_single_dot (seg : jsstring) : bool :=
  let l := map ascii_lower seg in
  str_eqb l (js ".") || str_eqb l (js "%2e").

Definition is_double_dot (seg : jsstring) : bool :=
  let l := map ascii_lower seg in
  str_eqb l (js "..") || str_eqb l (js ".%2e") || str_eqb l (js "%2e.")
  || str_eqb l (js "%2e%2e").

(** Path state over the segments of the input: [path] is the URL's path so
    far; the last segment is the one no slash ends. *)
Fixpoint path_state (segments : list jsstring) (path : list jsstring)
  : list jsstring :=
  match segments with
  | [] => path
  | [seg] =>
      if is_double_dot seg then removelast path ++ [[]]
      else if is_single_dot seg then path ++ [[]]
      else path ++ [percent_encode in_path_set seg]
  | seg :: rest =>
      if is_double_dot seg then path_state rest (removelast path)
      else if is_single_dot seg then path_state rest path
      else path_state rest (path ++ [percent_encode in_path_set seg])
  end.

(** The segments of a path: split at [/] and [\]. *)
Fixpoint split_slashes (s : jsstring) : list jsstring :=
  match s with
  | [] => [[]]
  | c :: r =>
      if is_slash c then [] :: split_slashes r
      else match split_slashes r with
           | [] => [[c]]
           | w :: ws => (c :: w) :: ws
           end
  end.

Definition serialize_path (path : list jsstring) : jsstring :=
  flat_map (fun seg => 47%N :: seg) path.

(** A forbidden domain code point, or a unit outside ASCII. *)
Definition forbidden_in_domain (c : N) : bool :=
  ((c <=? 32) || (c =? 35) || (c =? 37) || (c =? 47) || (c =? 58)
   || (c =? 60) || (c =? 62) || (c =? 63) || (c =? 64) || (c =? 91)
   || (c =? 92) || (c =? 93) || (c =? 94) || (c =? 124) || (127 <=? c))%N.

Definition is_hex (c : N) : bool :=
  match hexval c with Some _ => true | None => false end.

(** The ends-in-a-number check of the host parser. *)
Definition ends_in_number (host : jsstring) : bool :=
  let parts := split host 46 in
  let parts := match rev parts with
               | [] :: (_ :: _) as rest => rev rest
               | _ => parts
               end in
  match rev parts with
  | [] => false
  | l :: _ =>
      (nonempty l && forallb is_digit l)
      || ((startsWith l (js "0x") || startsWith l (js "0X"))
          && forallb is_hex (skipn 2 l))
  end.

Definition has_punycode_label (host : jsstring) : bool :=
  existsb (fun l => startsWith (map ascii_lower l) (js "xn--")) (split host 46).

(** The host of the reference: an ASCII domain, lower-cased. *)
Definition parse_host (host : jsstring) : option jsstring :=
  if nonempty host && negb (existsb forbidden_in_domain host)
     && negb (ends_in_number host) && negb (has_punycode_label host)
  then Some (map ascii_lower host)
  else None.

Definition valid_port (port : jsstring) : bool :=
  forallb is_digit port && (digits_value port <=? 65535)%Z.

Definition invalid_url {A} : M A := throw (TypeError (js "Invalid URL")).

(** The parser from the scheme on, for input without tabs and newlines. *)
Definition parse_absolute (s : jsstring) : M URL :=
  match parse_scheme s with
  | None => invalid_url
  | Some (scheme, rest) =>
      if is_special scheme then
        let rest := drop_leading is_slash rest in
        let (authority, rest) :=
          span_until (fun c => is_slash c || (c =? 63) || (c =? 35))%N rest in
        let hostport := last (split authority 64) [] in
        let (host, port) := span_until (fun c => (c =? 58)%N) hostport in
        if valid_port (skipn 1 port) then
          match parse_host host with
          | None => invalid_url
          | Some host =>
              let (path, rest) :=
                span_until (fun c => (c =? 63) || (c =? 35))%N rest in
              let segments := split_slashes (match path with
                                             | c :: p => if is_slash c then p else path
                                             | [] => path
                                             end) in
              let query := match rest with
                           | c :: q => if (c =? 63)%N
                                       then fst (span_until (fun c => (c =? 35)%N) q)
                                       else []
                           | [] => []
                           end in
              let query := percent_encode in_special_query_set query in
              ret {| hostname := host;
                     pathname := serialize_path (path_state segments []);
                     search := if nonempty query then 63%N :: query else [] |}
          end
        else invalid_url
      else invalid_url
  end.

(** [new URL(input)]: leading and trailing C0 control and space characters
    are removed first, then every tab and newline. *)
Definition URL_parse (input : jsstring) : M URL :=
  parse_absolute
    (filter (fun c => negb (is_tab_or_newline c))
            (drop_leading is_c0_or_space (drop_trailing is_c0_or_space input))).

Lemma drop_ends_cons (p : N -> bool) (c : N) (s : jsstring) :
  p c = true ->
  drop_leading p (drop_trailing p (c :: s)) = drop_leading p (drop_trailing p s).
Proof.
  intros Hc. simpl.
  destruct (drop_trailing p s) as [|d r]; simpl; rewrite Hc; reflexivity.
Qed.

Lemma URL_parse_leading (c : N) (s : jsstring) :
  (c <=? 32)%N = true -> URL_parse (c :: s) = URL_parse s.
Proof.
  intros Hc. unfold URL_parse.
  rewrite (drop_ends_cons is_c0_or_space c s Hc). reflexivity.
Qed.

#[export] Instance platform : Platform :=
  {| URL_ctor := URL_parse;
     URL_ctor_leading := URL_parse_leading;
     Js.toLowerCase := toLowerCase;
     Js.Number_toString := Number_toString;
     Js.JSON_parse := JSON_parse |}.

End Node.

(** ** Vocabulary of the properties *)

Module Props.
Import Js ReviewAnalyzer.

(** The six list-typed fields of a result hold arrays. *)
Definition well_formed (r : AnalysisResult) : Prop :=
  Array_isArray (topicSummaries r) = true /\
  Array_isArray (keyInsights r) = true /\
  Array_isArray (commonPhrases r) = true /\
  Array_isArray (customerPainPoints r) = true /\
  Array_isArray (positiveHighlights r) = true /\
  Array_isArray (recommendations r) = true.

(** The three sentiment labels. *)
Definition is_label (v : JsValue) : Prop :=
  v = JString (js "positive") \/ v = JString (js "negative")
  \/ v = JString (js "mixed").









(** The white space [trim] removes from the front of a string. *)
Fixpoint leading_space (s : jsstring) : jsstring :=
  match s with
  | [] => []
  | c :: r => if isWhiteSpace c then c :: leading_space r else []
  end.

(** The request of [getPlaceReviews] for a place. *)
Definition details_url (placeId : jsstring) : jsstring :=
  js "https://places.googleapis.com/v1/places/" ++ placeId.

Definition no_reviews_error : exn :=
  Error (js "No substantial reviews found for this place.").

(** *** Sample data *)

Definition review_of (rating : float) (text : string) : Review :=
  mkReview (js text) (Some rating) None.

Definition raw_of (rating : float) (text : string) : RawReview :=
  mkRawReview (Some (mkLocalizedText (Some (js text)))) None (Some rating) None.

(** Three reviews of the provider, one of them too short to count. *)
Definition sample_details : PlaceDetails :=
  mkPlaceDetails (Some (mkLocalizedText (Some (js "Cafe Location"))))
    (Some [ raw_of 5 "Great food and friendly staff";
            raw_of 2 "Too slow";
            raw_of 4 "Good coffee, will come back" ]).

Definition sample_fetch (url : jsstring) : M Response :=
  ret (mkResponse true 200 (ret sample_details)).

(** What [getPlaceReviews] returns for [sample_fetch]. *)
Definition sample_batch : ReviewBatch :=
  {| name := Some (js "Cafe Location");
     reviews := [ review_of 5 "Great food and friendly staff";
                  review_of 4 "Good coffee, will come back" ];
     totalFound := 2;
     totalAvailable := 3;
     limitApplied := false |}.

(** A response whose reviews are all too short. *)
Definition short_details : PlaceDetails :=
  mkPlaceDetails None (Some [ raw_of 5 "Nice"; raw_of 1 "Bad" ]).

Definition short_fetch (url : jsstring) : M Response :=
  ret (mkResponse true 200 (ret short_details)).

Definition sample_reviews : list Review :=
  [ review_of 5 "Great food and friendly staff";
    review_of 4 "Good coffee, will come back" ].

(** The same ratings as [sample_reviews] under other texts. *)
Definition other_texts : list Review :=
  [ review_of 5 "Terrible parking, awful queue";
    review_of 4 "Worst seats in town, I hate them" ].

(** Twenty-five reviews: eighteen rated 4 or 5, three rated 1 or 2, four
    rated 3. *)
Definition scenario_ratings : list float :=
  [5; 5; 5; 4; 5; 1; 5; 4; 5; 5; 3; 4; 5; 2; 5; 3; 4; 5; 1; 5; 3; 4; 5; 3; 4]%float.

Definition scenario_reviews : list Review :=
  map (fun x => review_of x "The food was fine overall") scenario_ratings.

(** Inputs of [parseGoogleMapsUrl]: a short link, the same link after a
    space, and after a space and an [@]. *)
Definition short_link : jsstring := js "https://maps.app.goo.gl/abc123".
Definition spaced_link : jsstring := js " https://maps.app.goo.gl/abc123".
Definition spaced_at_link : jsstring := js " @https://maps.app.goo.gl/abc123".

(** The short link after a no-break space (U+00A0), which [trim] removes and
    [new URL] does not. *)
Definition nbsp_link : jsstring := 160%N :: short_link.

(** A provider that fails, and providers that answer a fixed text. *)
Definition failing_ai (prompt : jsstring) : M jsstring :=
  throw (Error (js "fetch failed")).

Definition answering (response : jsstring) (prompt : jsstring) : M jsstring :=
  ret response.


Definition broken_response : jsstring := js "Here you go: {oops}".

Definition neutral_response : jsstring :=
  js' "```json
{'overallSentiment': 'neutral', 'keyInsights': ['Mostly fine']}
```".

Definition partial_response : jsstring :=
  js' "{'topicSummaries': 'none', 'keyInsights': ['Mostly fine'], 'recommendations': null}".


(** An address with a place segment and a query parameter, and an address
    of a site that is not a map. *)
Definition place_and_query : jsstring :=
  js "https://maps.google.com/maps/place/Cafe+Roma?q=Other+Name".
Definition other_site : jsstring := js "https://example.com/not-google-maps".

(** Places of the search provider and some of its answers. *)
Definition sample_place : PlaceJson :=
  mkPlaceJson (js "abc") (Some (mkLocalizedText (Some (js "Cafe Location"))))
              (Some 4.5%float) (Some 120%float).

Definition nameless_place : PlaceJson :=
  mkPlaceJson (js "xyz") None None None.

Definition search_answer (ps : list PlaceJson) : SearchResponse :=
  mkSearchResponse true 200 (ret []) (ret (mkSearchData (Some ps))).

Definition sample_search (query : jsstring) : M SearchResponse :=
  ret (search_answer [sample_place; nameless_place]).

Definition nameless_search (query : jsstring) : M SearchResponse :=
  ret (search_answer [nameless_place]).

Definition empty_search (query : jsstring) : M SearchResponse :=
  ret (search_answer []).

Definition denied_search (query : jsstring) : M SearchResponse :=
  ret (mkSearchResponse false 403 (ret (js "forbidden"))
         (throw (SyntaxError (js "Unexpected token in JSON")))).

Definition failing_fetch (url : jsstring) : M Response :=
  ret (mkResponse false 500 (throw (SyntaxError (js "Unexpected token in JSON")))).

(** The errors [parseGoogleMapsUrl] and [decodeURIComponent] throw. *)
Definition not_a_url : exn := Error (js "Please provide a valid URL").
Definition not_a_maps_url : exn :=
  Error (js "Please provide a valid Google Maps URL").
Definition no_place_name : exn :=
  Error (js "Could not extract place name from this URL format").
Definition uri_malformed : exn := URIError (js "URI malformed").

(** The errors of [findPlace] and [getPlaceReviews] that carry a status or
    a query. *)
Definition find_failed (status : N) : exn :=
  Error (js "Failed to find place: " ++ decimal status).

Definition no_results (query : jsstring) : exn :=
  Error (js' "No results found for '" ++ query
         ++ js' "'. Try a more specific search term.").

Definition reviews_failed (status : N) : exn :=
  Error (js "Failed to get reviews: " ++ decimal status).

(** Fifty-one raw reviews of which one is long enough to count. *)
Definition mostly_short_details : PlaceDetails :=
  mkPlaceDetails None
    (Some (raw_of 5 "Great food and friendly staff" :: repeat (raw_of 1 "Bad") 50)).

Definition mostly_short_fetch (url : jsstring) : M Response :=
  ret (mkResponse true 200 (ret mostly_short_details)).

Definition mostly_short_batch : ReviewBatch :=
  {| name := None;
     reviews := [ review_of 5 "Great food and friendly staff" ];
     totalFound := 1;
     totalAvailable := 51;
     limitApplied := true |}.

(** Twenty-one reviews, and the same with another last review. *)
Definition twenty_reviews : list Review :=
  repeat (review_of 5 "Great food and friendly staff") 20.

Definition many_reviews : list Review :=
  twenty_reviews ++ [review_of 1 "Terrible parking, awful queue"].

Definition many_reviews' : list Review :=
  twenty_reviews ++ [review_of 3 "Nothing special to report"].

(** A JSON object as the provider may wrap it. *)
Definition object_text : jsstring := js' "{'overallSentiment': 'positive'}".

(** Reviews that carry no rating. *)
Definition unrated_reviews : list Review :=
  [ mkReview (js "Great food and friendly staff") None None;
    mkReview (js "Good coffee, will come back") None None ].

(** Reviews in which no keyword of the fallback occurs. *)
Definition plain_reviews : list Review :=
  [ review_of 3 "Service was okay overall";
    review_of 3 "Nothing special to report" ].


(** The strings of a list of string values. *)
Definition strings_of (phrases : list jsstring) : JsValue :=
  JArray (map JString phrases).

(** A request for the sample place and the time of the request. *)
Definition search_link : jsstring :=
  js "https://maps.google.com/maps/search/Cafe+Location".
Definition request_time : jsstring := js "2025-01-01T00:00:00.000Z".

End Props.

(* ================================================================= *)
(** * Part II: properties *)
(* ================================================================= *)

Import Js ReviewAnalyzer Props.

(** ** Review fetching *)

Section Fetching.

Variable cfg : Config.

Lemma reviews_of_ok (data : PlaceDetails) (batch : ReviewBatch) :
  reviews_of cfg data = inr batch ->
  batch =
    let kept := firstn (maxReviews cfg)
                  (filter substantial (map map_review (reviews_or_empty data))) in
    {| name := optional_text (displayName data);
       reviews := kept;
       totalFound := length kept;
       totalAvailable := length (reviews_or_empty data);
       limitApplied := maxReviews cfg <? length (reviews_or_empty data) |}.
Proof.
  unfold reviews_of.
  destruct (length _ =? 0); intros H; [discriminate|].
  unfold ret in H. injection H as <-. reflexivity.
Qed.

Lemma getPlaceReviews_inv fetch placeId (batch : ReviewBatch) :
  getPlaceReviews cfg fetch placeId = inr batch ->
  exists response data,
    fetch (details_url placeId) = inr response /\ ok response = true /\
    json response = inr data /\ reviews_of cfg data = inr batch.
Proof.
  unfold getPlaceReviews, details_url, bind.
  destruct (fetch _) as [e|response]; [discriminate|].
  destruct (ok response) eqn:Hok; simpl; [|discriminate].
  destruct (json response) as [e|data] eqn:Hj; [discriminate|].
  intros H. exists response, data. repeat split; auto.
Qed.

End Fetching.

Lemma filter_nil_Forall {A} (f : A -> bool) (l : list A) :
  filter f l = [] <-> Forall (fun x => f x = false) l.
Proof.
  induction l as [|x l IH]; simpl.
  - split; auto.
  - destruct (f x) eqn:Hx; split; intros H.
    + discriminate.
    + inversion H; congruence.
    + constructor; [assumption | apply IH; assumption].
    + inversion H; subst. apply IH; assumption.
Qed.

Lemma all_short_iff (l : list Review) :
  filter substantial l = [] <-> Forall (fun r => length (text r) <= 10) l.
Proof.
  rewrite filter_nil_Forall. unfold substantial.
  split; intros H; eapply Forall_impl; try exact H; simpl; intros r Hr.
  - apply Nat.ltb_ge; assumption.
  - apply Nat.ltb_ge; assumption.
Qed.

Lemma reviews_of_empty (cfg : Config) (data : PlaceDetails) :
  filter substantial (map map_review (reviews_or_empty data)) = [] ->
  reviews_of cfg data = inl no_reviews_error.
Proof.
  intros H. unfold reviews_of. rewrite H, firstn_nil. reflexivity.
Qed.

Lemma reviews_of_nonempty (cfg : Config) (data : PlaceDetails) :
  0 < maxReviews cfg ->
  filter substantial (map map_review (reviews_or_empty data)) <> [] ->
  exists batch, reviews_of cfg data = inr batch.
Proof.
  intros Hmax H. unfold reviews_of.
  destruct (filter substantial _) as [|r kept]; [congruence|].
  destruct (maxReviews cfg) as [|n]; [lia|]. simpl. eexists; reflexivity.
Qed.

Lemma getPlaceReviews_success (cfg : Config) fetch placeId response data :
  fetch (details_url placeId) = inr response ->
  ok response = true ->
  json response = inr data ->
  getPlaceReviews cfg fetch placeId = reviews_of cfg data.
Proof.
  intros Hf Hok Hj. unfold getPlaceReviews, details_url in *.
  rewrite Hf. simpl. rewrite Hok. simpl. rewrite Hj. reflexivity.
Qed.

(** C3: the batch [getPlaceReviews] returns counts the raw reviews in
    [totalAvailable], holds the first [maxReviews] mapped reviews with a text
    longer than 10 units, in the provider's order, so [min (count, maxReviews)]
    of them, reports their number in [totalFound], and sets [limitApplied]
    exactly when [totalAvailable] exceeds [maxReviews]. *)
Theorem fetched_batch_counts (cfg : Config) (fetch : jsstring -> M Response)
  (placeId : jsstring) (batch : ReviewBatch) :
  getPlaceReviews cfg fetch placeId = inr batch ->
  exists response data,
    fetch (details_url placeId) = inr response /\
    json response = inr data /\
    let raw := reviews_or_empty data in
    let kept := filter substantial (map map_review raw) in
    totalAvailable batch = length raw /\
    reviews batch = firstn (maxReviews cfg) kept /\
    length (reviews batch) = Nat.min (length kept) (maxReviews cfg) /\
    totalFound batch = length (reviews batch) /\
    (limitApplied batch = true <-> maxReviews cfg < totalAvailable batch).
Proof.
  intros H.
  destruct (getPlaceReviews_inv cfg fetch placeId batch H)
    as (response & data & Hf & _ & Hj & Hr).
  exists response, data. split; [exact Hf|]. split; [exact Hj|].
  rewrite (reviews_of_ok cfg data batch Hr). simpl.
  repeat split.
  - rewrite length_firstn. apply Nat.min_comm.
  - apply Nat.ltb_lt.
  - apply Nat.ltb_lt.
Qed.

Lemma fetched_batch_counts_witness :
  getPlaceReviews config sample_fetch (js "abc") = inr sample_batch /\
  exists response data,
    sample_fetch (details_url (js "abc")) = inr response /\
    json response = inr data /\
    totalAvailable sample_batch = length (reviews_or_empty data) /\
    reviews sample_batch =
      firstn 50 (filter substantial (map map_review (reviews_or_empty data))) /\
    length (reviews sample_batch) =
      Nat.min (length (filter substantial
                         (map map_review (reviews_or_empty data)))) 50 /\
    totalFound sample_batch = length (reviews sample_batch) /\
    (limitApplied sample_batch = true <-> 50 < totalAvailable sample_batch).
Proof.
  split; [reflexivity|].
  apply (fetched_batch_counts config sample_fetch (js "abc") sample_batch).
  reflexivity.
Defined.

(** C7: after a successful response, [getPlaceReviews] throws the
    no-reviews error exactly when no mapped review has a text longer than 10
    units; it then returns no batch, and otherwise it returns one. *)
Theorem no_reviews_iff_all_short (fetch : jsstring -> M Response)
  (placeId : jsstring) (response : Response) (data : PlaceDetails) :
  fetch (details_url placeId) = inr response ->
  ok response = true ->
  json response = inr data ->
  let all_short :=
    Forall (fun r => length (text r) <= 10)
           (map map_review (reviews_or_empty data)) in
  (getPlaceReviews config fetch placeId = inl no_reviews_error <-> all_short)
  /\ (all_short ->
      forall batch, getPlaceReviews config fetch placeId <> inr batch)
  /\ (~ all_short ->
      exists batch, getPlaceReviews config fetch placeId = inr batch).
Proof.
  intros Hf Hok Hj all_short. subst all_short.
  rewrite (getPlaceReviews_success config fetch placeId response data Hf Hok Hj).
  rewrite <- all_short_iff.
  assert (Hne : filter substantial (map map_review (reviews_or_empty data)) <> [] ->
                exists batch, reviews_of config data = inr batch).
  { apply reviews_of_nonempty. simpl. lia. }
  split; [split|split].
  - intros Hthrow.
    destruct (filter substantial (map map_review (reviews_or_empty data)))
      as [|r kept] eqn:Hk; [reflexivity|].
    destruct Hne as [batch Hb]; [discriminate|]. congruence.
  - apply reviews_of_empty.
  - intros Hall batch. rewrite (reviews_of_empty config data Hall). discriminate.
  - exact Hne.
Qed.

Lemma no_reviews_iff_all_short_witness :
  short_fetch (details_url (js "abc")) = inr (mkResponse true 200 (ret short_details)) /\
  getPlaceReviews config short_fetch (js "abc") = inl no_reviews_error /\
  (exists batch, getPlaceReviews config sample_fetch (js "abc") = inr batch).
Proof.
  split; [reflexivity|]. split.
  - apply (no_reviews_iff_all_short short_fetch (js "abc")
             (mkResponse true 200 (ret short_details)) short_details
             eq_refl eq_refl eq_refl).
    repeat constructor.
  - apply (no_reviews_iff_all_short sample_fetch (js "abc")
             (mkResponse true 200 (ret sample_details)) sample_details
             eq_refl eq_refl eq_refl).
    intros Hall. inversion Hall as [|r l Hlen _]; subst.
    vm_compute in Hlen. lia.
Defined.

(** ** The fallback analysis *)

Section Fallback.
Context {platform : Platform}.

Lemma startsWith_app (t c : jsstring) : startsWith (t ++ c) t = true.
Proof.
  induction t as [|x t IH]; simpl.
  - destruct c; reflexivity.
  - rewrite N.eqb_refl. exact IH.
Qed.

Lemma includes_app (a t c : jsstring) : includes (a ++ t ++ c) t = true.
Proof.
  induction a as [|x a IH]; simpl.
  - pose proof (startsWith_app t c) as H.
    destruct (t ++ c); cbn [includes]; rewrite H; reflexivity.
  - rewrite IH. apply orb_true_r.
Qed.

Lemma rating_or_0_ext (r1 r2 : Review) :
  rating r1 = rating r2 -> rating_or_0 r1 = rating_or_0 r2.
Proof. unfold rating_or_0. intros ->. reflexivity. Qed.

Lemma fold_ratings_ext (rs1 rs2 : list Review) (a : float) :
  map rating rs1 = map rating rs2 ->
  fold_left (fun sum r => PrimFloat.add sum (rating_or_0 r)) rs1 a =
  fold_left (fun sum r => PrimFloat.add sum (rating_or_0 r)) rs2 a.
Proof.
  revert rs2 a.
  induction rs1 as [|r1 rs1 IH]; intros [|r2 rs2] a H; simpl in *;
    try discriminate; [reflexivity|].
  injection H as Hr Hrs.
  rewrite (rating_or_0_ext r1 r2 Hr). apply IH. exact Hrs.
Qed.

Lemma count_ratings_ext (g : float -> bool) (rs1 rs2 : list Review) :
  map rating rs1 = map rating rs2 ->
  length (filter (fun r => g (rating_or_0 r)) rs1) =
  length (filter (fun r => g (rating_or_0 r)) rs2).
Proof.
  revert rs2.
  induction rs1 as [|r1 rs1 IH]; intros [|r2 rs2] H; simpl in *;
    try discriminate; [reflexivity|].
  injection H as Hr Hrs.
  rewrite (rating_or_0_ext r1 r2 Hr).
  destruct (g (rating_or_0 r2)); simpl; rewrite (IH rs2 Hrs); reflexivity.
Qed.

Lemma sentiment_ext (rs1 rs2 : list Review) :
  map rating rs1 = map rating rs2 -> sentiment rs1 = sentiment rs2.
Proof.
  intros H. unfold sentiment, positiveReviews, negativeReviews.
  rewrite (count_ratings_ext (fun x => PrimFloat.leb 4 x) rs1 rs2 H).
  rewrite (count_ratings_ext (fun x => PrimFloat.leb x 2) rs1 rs2 H).
  reflexivity.
Qed.

Lemma sentiment_cases (reviews : list Review) :
  let pos := positiveReviews reviews in
  let neg := negativeReviews reviews in
  (2 * neg < pos -> sentiment reviews = js "positive") /\
  (2 * pos < neg -> sentiment reviews = js "negative") /\
  (~ 2 * neg < pos -> ~ 2 * pos < neg -> sentiment reviews = js "mixed").
Proof.
  simpl. unfold sentiment.
  destruct (Nat.ltb_spec (negativeReviews reviews * 2) (positiveReviews reviews));
  destruct (Nat.ltb_spec (positiveReviews reviews * 2) (negativeReviews reviews));
  repeat split; intros; try reflexivity; lia.
Qed.

(** C6: the fallback labels a review list "positive" when the reviews rated
    4 or more outnumber twice those rated 2 or less, "negative" when those
    rated 2 or less outnumber twice those rated 4 or more, and "mixed"
    otherwise, a missing rating counting as 0; for 25 reviews of which 18 are
    rated 4 or more and 3 are rated 2 or less the label is "positive", and
    the first key insight is built around the average rating printed with
    one decimal. *)
Theorem fallback_sentiment_rule (placeName : option jsstring)
  (reviews : list Review) :
  let pos := length (filter (fun r => PrimFloat.leb 4 (rating_or_0 r)) reviews) in
  let neg := length (filter (fun r => PrimFloat.leb (rating_or_0 r) 2) reviews) in
  let result := generateFallbackAnalysis placeName reviews in
  let average := toFixed Number_toString (avgRating reviews) 1 in
  (2 * neg < pos -> overallSentiment result = JString (js "positive")) /\
  (2 * pos < neg -> overallSentiment result = JString (js "negative")) /\
  (~ 2 * neg < pos -> ~ 2 * pos < neg ->
   overallSentiment result = JString (js "mixed")) /\
  (forall r, rating r = None -> rating_or_0 r = 0%float) /\
  (length reviews = 25 -> pos = 18 -> neg = 3 ->
   overallSentiment result = JString (js "positive") /\
   exists insight others,
     keyInsights result = JArray (JString insight :: others) /\
     insight = js "Average rating: " ++ average ++ js "/5 stars" /\
     includes insight average = true).
Proof.
  intros pos neg result average.
  destruct (sentiment_cases reviews) as (Hpos & Hneg & Hmix).
  change (positiveReviews reviews) with pos in *.
  change (negativeReviews reviews) with neg in *.
  assert (Hs : overallSentiment result = JString (sentiment reviews))
    by reflexivity.
  rewrite Hs.
  split; [|split; [|split; [|split]]].
  - intros H. rewrite (Hpos H). reflexivity.
  - intros H. rewrite (Hneg H). reflexivity.
  - intros H1 H2. rewrite (Hmix H1 H2). reflexivity.
  - intros r Hr. unfold rating_or_0. rewrite Hr. reflexivity.
  - intros _ H18 H3. split.
    + rewrite Hpos; [reflexivity | lia].
    + exists (js "Average rating: " ++ average ++ js "/5 stars").
      eexists. split; [reflexivity|]. split; [reflexivity|].
      apply (includes_app (js "Average rating: ") average (js "/5 stars")).
Qed.

(** C8: two review lists with the same sequence of ratings get the same
    average rating and the same label from the fallback, whatever their
    texts and place names. *)
Theorem fallback_depends_on_ratings (name1 name2 : option jsstring)
  (reviews1 reviews2 : list Review) :
  map rating reviews1 = map rating reviews2 ->
  avgRating reviews1 = avgRating reviews2 /\
  overallSentiment (generateFallbackAnalysis name1 reviews1) =
  overallSentiment (generateFallbackAnalysis name2 reviews2).
Proof.
  intros H. split.
  - unfold avgRating, totalRating.
    rewrite (fold_ratings_ext reviews1 reviews2 _ H).
    replace (length reviews1) with (length reviews2); [reflexivity|].
    rewrite <- (length_map rating reviews1), <- (length_map rating reviews2), H.
    reflexivity.
  - simpl. rewrite (sentiment_ext reviews1 reviews2 H). reflexivity.
Qed.

(** C10: the lists of a fallback result have fixed sizes: one topic
    summary, three key insights, two recommendations, one positive
    highlight, one to five common phrases and one to three pain points, a
    placeholder taking the place of the keywords when none is found. *)
Theorem fallback_shapes (placeName : option jsstring) (reviews : list Review) :
  let result := generateFallbackAnalysis placeName reviews in
  Array_length (topicSummaries result) = Some 1 /\
  Array_length (keyInsights result) = Some 3 /\
  Array_length (recommendations result) = Some 2 /\
  Array_length (positiveHighlights result) = Some 1 /\
  (exists n, Array_length (commonPhrases result) = Some n /\ 1 <= n <= 5) /\
  (exists n, Array_length (customerPainPoints result) = Some n /\ 1 <= n <= 3) /\
  (foundPositive reviews = [] ->
   commonPhrases result = JArray [JString (js "N/A")] /\
   positiveHighlights result =
     JArray [JString (js "Generally positive customer feedback")]) /\
  (foundNegative reviews = [] ->
   customerPainPoints result =
     JArray [JString (js "No major pain points identified")]).
Proof.
  intros result. subst result. unfold generateFallbackAnalysis. cbn [topicSummaries
    keyInsights recommendations positiveHighlights commonPhrases
    customerPainPoints Array_length].
  split; [reflexivity|]. split; [reflexivity|]. split; [reflexivity|].
  split; [|split; [|split; [|split]]].
  - destruct (foundPositive reviews); reflexivity.
  - destruct (foundPositive reviews) as [|w ws].
    + exists 1. split; [reflexivity | lia].
    + exists (length (firstn 5 (w :: ws))). split.
      * cbn [length Nat.ltb Nat.leb]. rewrite length_map. reflexivity.
      * rewrite length_firstn. cbn [length]. lia.
  - destruct (foundNegative reviews) as [|w ws].
    + exists 1. split; [reflexivity | lia].
    + exists (length (firstn 3 (w :: ws))). split.
      * cbn [length Nat.ltb Nat.leb]. rewrite length_map. reflexivity.
      * rewrite length_firstn. cbn [length]. lia.
  - intros H. rewrite H. split; reflexivity.
  - intros H. rewrite H. reflexivity.
Qed.

End Fallback.

Lemma fallback_sentiment_rule_witness :
  length scenario_reviews = 25 /\
  length (filter (fun r => PrimFloat.leb 4 (rating_or_0 r)) scenario_reviews) = 18 /\
  length (filter (fun r => PrimFloat.leb (rating_or_0 r) 2) scenario_reviews) = 3 /\
  overallSentiment
    (generateFallbackAnalysis (platform := Node.platform) None scenario_reviews)
  = JString (js "positive") /\
  exists insight others,
    keyInsights
      (generateFallbackAnalysis (platform := Node.platform) None scenario_reviews)
    = JArray (JString insight :: others) /\
    insight = js "Average rating: 4.0/5 stars" /\
    includes insight (js "4.0") = true.
Proof.
  split; [reflexivity|].
  split; [vm_compute; reflexivity|].
  split; [vm_compute; reflexivity|].
  exact (proj2 (proj2 (proj2 (proj2
           (fallback_sentiment_rule (platform := Node.platform)
              None scenario_reviews))))
         eq_refl eq_refl eq_refl).
Defined.

Lemma fallback_depends_on_ratings_witness :
  map rating sample_reviews = map rating other_texts /\
  avgRating sample_reviews = avgRating other_texts /\
  overallSentiment
    (generateFallbackAnalysis (platform := Node.platform)
       (Some (js "Cafe Location")) sample_reviews) =
  overallSentiment
    (generateFallbackAnalysis (platform := Node.platform) None other_texts).
Proof.
  split; [reflexivity|].
  apply (fallback_depends_on_ratings (platform := Node.platform)).
  reflexivity.
Defined.

Lemma fallback_shapes_witness :
  foundNegative (platform := Node.platform) sample_reviews = [] /\
  customerPainPoints
    (generateFallbackAnalysis (platform := Node.platform) None sample_reviews)
  = JArray [JString (js "No major pain points identified")].
Proof.
  split; [vm_compute; reflexivity|].
  apply (fallback_shapes (platform := Node.platform) None sample_reviews).
  vm_compute; reflexivity.
Defined.

(** The scenario of the specification, evaluated: the fallback result for
    the twenty-five reviews. *)
Example scenario_fallback :
  generateFallbackAnalysis (platform := Node.platform)
    (Some (js "Cafe Location")) scenario_reviews =
  {| overallSentiment := JString (js "positive");
     topicSummaries :=
       JArray
         [ JObject
             [ (js "topic", JString (js "Overall Experience"));
               (js "summary",
                JString (js "Based on 25 reviews with an average rating of 4.0/5 stars. 18 positive reviews vs 3 negative reviews."));
               (js "mentionCount", JNumber 25%float) ] ];
     keyInsights :=
       JArray
         [ JString (js "Average rating: 4.0/5 stars");
           JString (js "72% of reviews are positive (4+ stars)");
           JString (js "Analyzed 25 customer reviews for patterns and sentiment") ];
     commonPhrases := JArray [JString (js "N/A")];
     customerPainPoints := JArray [JString (js "No major pain points identified")];
     positiveHighlights := JArray [JString (js "Generally positive customer feedback")];
     recommendations :=
       JArray
         [ JString (js "Run a full AI analysis for detailed insights");
           JString (js "Continue maintaining quality standards") ] |}.
Proof. vm_compute. reflexivity. Qed.

(** ** URL resolution *)

Section Resolver.
Context {platform : Platform}.

Lemma drop_trailing_cons_keep (p : N -> bool) (c : N) (r : jsstring) :
  p c = false -> drop_trailing p (c :: r) = c :: drop_trailing p r.
Proof.
  intros Hc. simpl. destruct (drop_trailing p r); [rewrite Hc|]; reflexivity.
Qed.

Lemma drop_leading_head (p : N -> bool) (s : jsstring) (c : N) (r : jsstring) :
  drop_leading p s = c :: r -> p c = false.
Proof.
  induction s as [|x s IH]; simpl; [discriminate|].
  destruct (p x) eqn:Hx; [exact IH|].
  intros H. injection H as -> _. exact Hx.
Qed.

Lemma trim_at (v : jsstring) : trim (js "@" ++ v) = js "@" ++ trimEnd v.
Proof.
  unfold trim, trimStart, trimEnd. simpl.
  destruct (drop_trailing isWhiteSpace v); reflexivity.
Qed.

(** However [v] begins, one [@] is removed and no more. *)
Lemma cleanUrl_at (v : jsstring) : cleanUrl (js "@" ++ v) = trimEnd v.
Proof.
  unfold cleanUrl. rewrite trim_at. reflexivity.
Qed.

Lemma cleanUrl_no_at (u : jsstring) :
  startsWith (trimStart u) (js "@") = false -> cleanUrl u = trim u.
Proof.
  intros H. unfold cleanUrl.
  replace (startsWith (trim u) (js "@")) with false; [reflexivity|].
  unfold trim, trimStart, trimEnd in *.
  destruct (drop_leading isWhiteSpace u) as [|c r] eqn:E; [reflexivity|].
  rewrite (drop_trailing_cons_keep _ c r (drop_leading_head _ u c r E)).
  symmetry. exact H.
Qed.

(** Leading white space that [new URL] ignores makes no difference to it. *)
Lemma URL_ctor_trimEnd (u : jsstring) :
  forallb (fun c => (c <=? 32)%N) (leading_space u) = true ->
  URL_ctor (trimEnd u) = URL_ctor (trim u).
Proof.
  unfold trim, trimStart, trimEnd.
  induction u as [|c r IH]; [reflexivity|].
  cbn [leading_space drop_leading].
  destruct (isWhiteSpace c) eqn:Hc; [|reflexivity].
  cbn [forallb drop_trailing]. rewrite Hc.
  intros H. apply andb_prop in H as [Hs Hr].
  rewrite <- (IH Hr).
  destruct (drop_trailing isWhiteSpace r) as [|d r']; [reflexivity|].
  apply URL_ctor_leading. exact Hs.
Qed.

(** The method is a function of the cleaned input. *)
Lemma parseGoogleMapsUrl_clean (u v : jsstring) :
  URL_ctor (cleanUrl u) = URL_ctor (cleanUrl v) ->
  parseGoogleMapsUrl u = parseGoogleMapsUrl v.
Proof.
  intros H. unfold parseGoogleMapsUrl. rewrite H. reflexivity.
Qed.

(** C9, amended: when the trimmed input starts with an [@], that one unit is
    removed and nothing else, whatever follows it; and the method returns the
    same value or throws the same error for [@u] and for [u] whenever the
    first unit of [u] that is not white space is not an [@] and the white
    space before it is made of units up to U+0020, which [new URL] ignores. *)
Theorem leading_at_is_dropped (u : jsstring) :
  startsWith (trimStart u) (js "@") = false ->
  forallb (fun c => (c <=? 32)%N) (leading_space u) = true ->
  (forall s v, trim s = js "@" ++ v -> cleanUrl s = v) /\
  parseGoogleMapsUrl (js "@" ++ u) = parseGoogleMapsUrl u.
Proof.
  intros Hat Hsp. split.
  - intros s v H. unfold cleanUrl. rewrite H. reflexivity.
  - apply parseGoogleMapsUrl_clean.
    rewrite cleanUrl_at, (cleanUrl_no_at u Hat).
    apply URL_ctor_trimEnd. exact Hsp.
Qed.

End Resolver.

Lemma leading_at_is_dropped_witness :
  startsWith (trimStart spaced_link) (js "@") = false /\
  forallb (fun c => (c <=? 32)%N) (leading_space spaced_link) = true /\
  parseGoogleMapsUrl (platform := Node.platform) (js "@" ++ spaced_link) =
  parseGoogleMapsUrl (platform := Node.platform) spaced_link.
Proof.
  split; [reflexivity|]. split; [reflexivity|].
  apply (leading_at_is_dropped (platform := Node.platform) spaced_link);
    reflexivity.
Defined.

(** C9 as stated fails: neither [spaced_at_link] nor [nbsp_link] starts with
    an [@], yet with an [@] before them the input is rejected as no URL, and
    without it the short link is resolved. *)
Lemma leading_at_counterexample :
  (startsWith spaced_at_link (js "@") = false /\
   parseGoogleMapsUrl (platform := Node.platform) (js "@" ++ spaced_at_link)
   = inl (Error (js "Please provide a valid URL")) /\
   parseGoogleMapsUrl (platform := Node.platform) spaced_at_link
   = inr (js "Location from Google Maps")) /\
  (startsWith nbsp_link (js "@") = false /\
   parseGoogleMapsUrl (platform := Node.platform) (js "@" ++ nbsp_link)
   = inl (Error (js "Please provide a valid URL")) /\
   parseGoogleMapsUrl (platform := Node.platform) nbsp_link
   = inr (js "Location from Google Maps")).
Proof. repeat split; vm_compute; reflexivity. Qed.

(** The inputs of [test-urls.js] and what the method makes of them. *)
Example test_urls :
  map (parseGoogleMapsUrl (platform := Node.platform))
    [ js "@https://maps.app.goo.gl/3a3YDmhLRacNV9Bs9";
      js "https://maps.app.goo.gl/3a3YDmhLRacNV9Bs9";
      js "https://maps.google.com/maps/place/Restaurant+Name";
      js "https://maps.google.com/maps/search/Cafe+Location";
      js "https://maps.google.com/?q=Business+Name";
      js "https://maps.app.goo.gl/abc123?q=Test+Location";
      js "invalid-url";
      js "https://example.com/not-google-maps" ]
  = [ inr (js "Location from Google Maps");
      inr (js "Location from Google Maps");
      inr (js "Restaurant Name");
      inr (js "Cafe Location");
      inr (js "Business Name");
      inr (js "Test Location");
      inl (Error (js "Please provide a valid URL"));
      inl (Error (js "Please provide a valid Google Maps URL")) ].
Proof. vm_compute. reflexivity. Qed.

(** C4: the same expression decodes a path segment and a value of [q], but
    [searchParams.get] has decoded the value once already.  The text
    [100%25] is the name [100%] as a path segment and an error as a value of
    [q]; the text [%2541] is [%41] as a segment and [A] as a value. *)
Theorem query_value_decoded_twice :
  parseGoogleMapsUrl (platform := Node.platform)
    (js "https://maps.google.com/maps/place/100%25") = inr (js "100%") /\
  parseGoogleMapsUrl (platform := Node.platform)
    (js "https://maps.google.com/?q=100%25")
  = inl (URIError (js "URI malformed")) /\
  parseGoogleMapsUrl (platform := Node.platform)
    (js "https://maps.google.com/maps/place/%2541") = inr (js "%41") /\
  parseGoogleMapsUrl (platform := Node.platform)
    (js "https://maps.google.com/?q=%2541") = inr (js "A").
Proof. repeat split; vm_compute; reflexivity. Qed.

(** ** The analysis *)

Section Analysis.
Context {platform : Platform}.

Lemma array_or_empty_isArray (a : option JsValue) :
  Array_isArray (array_or_empty a) = true.
Proof.
  destruct a as [v|]; [|reflexivity].
  simpl. destruct (Array_isArray v) eqn:E; [exact E | reflexivity].
Qed.



Lemma validatedAnalysis_well_formed (analysis : JsValue) (r : AnalysisResult) :
  validatedAnalysis analysis = inr r -> well_formed r.
Proof.
  unfold validatedAnalysis.
  destruct analysis; simpl; try discriminate;
    intros H; injection H as <-; unfold well_formed; simpl;
    repeat split; try reflexivity; apply array_or_empty_isArray.
Qed.

Lemma validatedAnalysis_sentiment (analysis : JsValue) (r : AnalysisResult) :
  validatedAnalysis analysis = inr r ->
  exists value, get analysis (js "overallSentiment") = inr value /\
                overallSentiment r = or_else value (JString (js "mixed")).
Proof.
  unfold validatedAnalysis.
  destruct analysis; simpl; try discriminate;
    intros H; injection H as <-; eexists; split; reflexivity.
Qed.

Lemma fallback_well_formed (placeName : option jsstring) (reviews : list Review) :
  well_formed (generateFallbackAnalysis placeName reviews).
Proof. unfold well_formed. simpl. repeat split. Qed.

Lemma fallback_is_label (placeName : option jsstring) (reviews : list Review) :
  is_label (overallSentiment (generateFallbackAnalysis placeName reviews)).
Proof.
  unfold is_label. simpl. unfold sentiment.
  destruct (_ <? _); [auto|]. destruct (_ <? _); auto.
Qed.

(** What a returning primary path went through. *)
Lemma primary_analysis_inv ai placeName reviews (r : AnalysisResult) :
  primary_analysis ai placeName reviews = inr r ->
  exists responseText,
    ai (prompt placeName reviews) = inr responseText /\
    ((jsonMatch (cleanResponse responseText) = None /\
      r = generateFallbackAnalysis placeName reviews) \/
     exists matched analysis,
       jsonMatch (cleanResponse responseText) = Some matched /\
       JSON_parse matched = inr analysis /\
       validatedAnalysis analysis = inr r).
Proof.
  unfold primary_analysis, bind.
  destruct (ai _) as [e|responseText]; [discriminate|].
  intros H. exists responseText. split; [reflexivity|].
  destruct (jsonMatch _) as [matched|].
  - right. destruct (JSON_parse matched) as [e|analysis] eqn:Hp; [discriminate|].
    exists matched, analysis. auto.
  - left. injection H as <-. auto.
Qed.


Lemma analyzeReviews_returns ai placeName reviews :
  exists r, analyzeReviews ai placeName reviews = inr r /\
            (r = generateFallbackAnalysis placeName reviews \/
             primary_analysis ai placeName reviews = inr r).
Proof.
  unfold analyzeReviews.
  destruct (primary_analysis ai placeName reviews) as [e|r]; simpl.
  - exists (generateFallbackAnalysis placeName reviews). auto.
  - exists r. auto.
Qed.

Lemma analyzeReviews_well_formed ai placeName reviews :
  exists r, analyzeReviews ai placeName reviews = inr r /\ well_formed r.
Proof.
  destruct (analyzeReviews_returns ai placeName reviews) as (r & Hr & [-> | Hp]).
  - eexists; split; [exact Hr | apply fallback_well_formed].
  - exists r. split; [exact Hr|].
    destruct (primary_analysis_inv ai placeName reviews r Hp)
      as (responseText & _ & [[_ ->] | (matched & analysis & _ & _ & Hv)]).
    + apply fallback_well_formed.
    + exact (validatedAnalysis_well_formed analysis r Hv).
Qed.

End Analysis.

(** *** Cleaning and matching the response *)





Lemma drop_leading_suffix (p : N -> bool) (s : jsstring) :
  exists a, s = a ++ drop_leading p s.
Proof.
  induction s as [|c r [a IH]]; simpl.
  - exists []. reflexivity.
  - destruct (p c).
    + exists (c :: a). simpl. rewrite <- IH. reflexivity.
    + exists []. reflexivity.
Qed.

Lemma drop_trailing_prefix (p : N -> bool) (s : jsstring) :
  exists c, s = drop_trailing p s ++ c.
Proof.
  induction s as [|x r [c IH]]; simpl.
  - exists []. reflexivity.
  - destruct (drop_trailing p r) as [|d r'] eqn:E.
    + destruct (p x).
      * exists (x :: r). reflexivity.
      * exists c. simpl. rewrite IH. reflexivity.
    + exists c. simpl. rewrite IH. reflexivity.
Qed.






(** Under the guard of the source the tag stands at the start, so removing
    its first occurrence removes a prefix. *)
Lemma remove_first_at_start (s tag : jsstring) :
  startsWith s tag = true ->
  remove_first s tag = trimStart (skipn (length tag) s).
Proof.
  intros H. destruct s; simpl; rewrite H; reflexivity.
Qed.









(** *** The contract of [analyzeReviews] *)



Section Contract.
Context {platform : Platform}.

Variable ai : jsstring -> M jsstring.
Variable placeName : option jsstring.
Variable reviews : list Review.



(** C5, amended: a fallback result is labelled "positive", "negative" or
    "mixed"; [analyzeReviews] returns either the fallback result or, on the
    primary path, a result whose [overallSentiment] is that of the parsed
    response when this value is truthy, whatever it is, and "mixed"
    otherwise. *)
Theorem sentiment_label_by_path :
  is_label (overallSentiment (generateFallbackAnalysis placeName reviews)) /\
  exists r,
    analyzeReviews ai placeName reviews = inr r /\
    (r = generateFallbackAnalysis placeName reviews \/
     exists responseText matched analysis value,
       ai (prompt placeName reviews) = inr responseText /\
       jsonMatch (cleanResponse responseText) = Some matched /\
       JSON_parse matched = inr analysis /\
       get analysis (js "overallSentiment") = inr value /\
       overallSentiment r =
         match value with
         | Some v => if truthy v then v else JString (js "mixed")
         | None => JString (js "mixed")
         end).
Proof.
  split; [apply fallback_is_label|].
  destruct (analyzeReviews_returns ai placeName reviews) as (r & Hr & [-> | Hp]).
  - eexists. split; [exact Hr|]. left. reflexivity.
  - exists r. split; [exact Hr|].
    destruct (primary_analysis_inv ai placeName reviews r Hp)
      as (responseText & Ha & [[_ ->] | (matched & analysis & Hm & Hj & Hv)]).
    + left. reflexivity.
    + right.
      destruct (validatedAnalysis_sentiment analysis r Hv) as (value & Hg & Hs).
      exists responseText, matched, analysis, value. auto 6.
Qed.

End Contract.



(** A response with a malformed list, a missing list and no sentiment,
    through the whole method. *)
Example partial_response_repaired :
  analyzeReviews (platform := Node.platform) (answering partial_response)
    (Some (js "Cafe Location")) sample_reviews =
  inr {| overallSentiment := JString (js "mixed");
         topicSummaries := JArray [];
         keyInsights := JArray [JString (js "Mostly fine")];
         commonPhrases := JArray [];
         customerPainPoints := JArray [];
         positiveHighlights := JArray [];
         recommendations := JArray [] |}.
Proof. vm_compute. reflexivity. Qed.


(** C5 as stated fails: for a response whose [overallSentiment] is
    "neutral" the method returns that value, which is none of the three
    labels. *)
Lemma sentiment_label_counterexample :
  exists r,
    analyzeReviews (platform := Node.platform) (answering neutral_response)
      (Some (js "Cafe Location")) sample_reviews = inr r /\
    overallSentiment r = JString (js "neutral") /\
    ~ is_label (overallSentiment r).
Proof.
  eexists. split; [vm_compute; reflexivity|]. split; [reflexivity|].
  unfold is_label. cbn [overallSentiment].
  intros [H | [H | H]]; vm_compute in H; discriminate.
Qed.

(* ================================================================= *)
(** * Part III: further properties of the code *)
(* ================================================================= *)

(** ** [parseGoogleMapsUrl]: hosts, errors, priority *)

Section ResolverMore.
Context {platform : Platform}.

Lemma decode_name_error (x : jsstring) (e : exn) :
  decode_name x = inl e -> e = uri_malformed.
Proof.
  unfold decode_name, decodeURIComponent, bind.
  destruct (decode_tokens (uri_tokens x)); [discriminate|].
  intros H. injection H as <-. reflexivity.
Qed.

Lemma patterns_error (urlObj : URL) (pathParts : list jsstring) :
  Forall (fun p : M (option jsstring) => forall e, p = inl e -> e = uri_malformed)
         (patterns urlObj pathParts).
Proof.
  unfold patterns, pattern_place, pattern_search, pattern_short, pattern_q.
  repeat constructor; intros e.
  - destruct (segment_after _ _); [|discriminate].
    destruct (negb _); [apply decode_name_error | discriminate].
  - destruct (segment_after _ _); [apply decode_name_error | discriminate].
  - destruct (includes _ _); [|discriminate].
    destruct (if_truthy _); [apply decode_name_error|].
    destruct (_ && _); discriminate.
  - destruct (if_truthy _); [apply decode_name_error | discriminate].
Qed.

Lemma first_result_error (ps : list (M (option jsstring))) (e : exn) :
  Forall (fun p : M (option jsstring) => forall e, p = inl e -> e = uri_malformed) ps ->
  first_result ps = inl e -> e = uri_malformed.
Proof.
  induction 1 as [|p ps Hp _ IH]; simpl; [discriminate|].
  destruct p as [e'|result]; simpl.
  - intros H. injection H as <-. apply Hp. reflexivity.
  - destruct (if_truthy result); [discriminate | exact IH].
Qed.

Lemma first_result_trimmed (ps : list (M (option jsstring))) (x : jsstring) :
  first_result ps = inr (Some x) -> exists r, x = trim r.
Proof.
  induction ps as [|p ps IH]; simpl; [discriminate|].
  destruct p as [e'|result]; simpl; [discriminate|].
  destruct (if_truthy result) as [r|]; [|exact IH].
  intros H. injection H as <-. exists r. reflexivity.
Qed.

Lemma extract_place_name_error (urlObj : URL) (e : exn) :
  extract_place_name urlObj = inl e ->
  (e = not_a_maps_url /\ is_maps_host (hostname urlObj) = false) \/
  (e = no_place_name /\
   includes (hostname urlObj) (js "maps.app.goo.gl") = false) \/
  e = uri_malformed.
Proof.
  unfold extract_place_name.
  destruct (is_maps_host (hostname urlObj)); cbn [negb].
  - destruct (first_result _) as [e'|found] eqn:Hf; cbn [bind].
    + intros H. injection H as <-. right. right.
      eapply first_result_error; [apply patterns_error | exact Hf].
    + destruct found; [discriminate|].
      destruct (includes _ _); [discriminate|].
      intros H. injection H as <-. right. left. split; reflexivity.
  - intros H. injection H as <-. left. split; reflexivity.
Qed.

Lemma parseGoogleMapsUrl_parsed (u : jsstring) (urlObj : URL) :
  URL_ctor (cleanUrl u) = inr urlObj ->
  parseGoogleMapsUrl u = extract_place_name urlObj.
Proof.
  intros H. unfold parseGoogleMapsUrl. rewrite H. simpl.
  destruct (extract_place_name urlObj) as [e|placeName] eqn:He; [|reflexivity].
  simpl.
  destruct (extract_place_name_error urlObj e He) as [[-> _] | [[-> _] | ->]];
    reflexivity.
Qed.

(** X1: an address that parses as a URL whose host name contains none of
    [google.com], [maps.google] and [maps.app.goo.gl] is refused with the
    request for a Google Maps URL, whatever its path and query. *)
Theorem unsupported_host_rejected (u : jsstring) (urlObj : URL) :
  URL_ctor (cleanUrl u) = inr urlObj ->
  is_maps_host (hostname urlObj) = false ->
  parseGoogleMapsUrl u = inl not_a_maps_url.
Proof.
  intros Hu Hh. rewrite (parseGoogleMapsUrl_parsed u urlObj Hu).
  unfold extract_place_name. rewrite Hh. reflexivity.
Qed.

(** X2: the method throws nothing but its own three errors, the error of
    [decodeURIComponent], and an error of [new URL] whose message does not
    contain "Invalid URL"; the errors thrown after the URL was parsed reach
    the caller as they are. *)
Theorem resolver_errors (u : jsstring) (e : exn) :
  parseGoogleMapsUrl u = inl e ->
  e = not_a_url \/ e = not_a_maps_url \/ e = no_place_name \/
  e = uri_malformed \/
  (URL_ctor (cleanUrl u) = inl e /\
   includes (message e) (js "Invalid URL") = false).
Proof.
  destruct (URL_ctor (cleanUrl u)) as [e0|urlObj] eqn:Hu.
  - unfold parseGoogleMapsUrl. rewrite Hu. cbn [bind try_catch].
    destruct (includes (message e0) (js "Invalid URL")) eqn:Hi;
      intros H; inversion H; subst; auto 6.
  - rewrite (parseGoogleMapsUrl_parsed u urlObj Hu). intros He.
    destruct (extract_place_name_error urlObj e He) as [[-> _] | [[-> _] | ->]];
      auto 6.
Qed.

(** X3: a name in the path wins over a name in the query: when the segment
    after [place] does not start with an [@] and decodes to a non-empty
    text, the method returns that text, [+] read as a space and trimmed,
    whatever the query holds. *)
Theorem place_segment_has_priority (u : jsstring) (urlObj : URL)
  (seg decoded : jsstring) :
  URL_ctor (cleanUrl u) = inr urlObj ->
  is_maps_host (hostname urlObj) = true ->
  segment_after (filter nonempty (split (pathname urlObj) 47)) (js "place")
  = Some seg ->
  startsWith seg (js "@") = false ->
  decodeURIComponent seg = inr decoded ->
  decoded <> [] ->
  parseGoogleMapsUrl u = inr (trim (replace_plus decoded)).
Proof.
  intros Hu Hh Hs Hat Hd Hne. rewrite (parseGoogleMapsUrl_parsed u urlObj Hu).
  unfold extract_place_name. rewrite Hh. simpl.
  unfold pattern_place. rewrite Hs, Hat. simpl.
  unfold decode_name. rewrite Hd. simpl.
  destruct decoded as [|c r]; [congruence|]. reflexivity.
Qed.

(** X4: for a host name that contains [maps.app.goo.gl] the method gives up
    on no address: it returns a name or a placeholder, unless an escape
    sequence in the address is malformed. *)
Theorem short_link_always_resolves (u : jsstring) (urlObj : URL) :
  URL_ctor (cleanUrl u) = inr urlObj ->
  includes (hostname urlObj) (js "maps.app.goo.gl") = true ->
  (exists placeName, parseGoogleMapsUrl u = inr placeName) \/
  parseGoogleMapsUrl u = inl uri_malformed.
Proof.
  intros Hu Hh. rewrite (parseGoogleMapsUrl_parsed u urlObj Hu).
  destruct (extract_place_name urlObj) as [e|placeName] eqn:He.
  - right.
    destruct (extract_place_name_error urlObj e He)
      as [[_ Hm] | [[_ Hs] | ->]]; [| congruence | reflexivity].
    unfold is_maps_host in Hm. rewrite Hh in Hm.
    rewrite orb_true_r in Hm. discriminate.
  - left. exists placeName. reflexivity.
Qed.

Lemma drop_trailing_idem (p : N -> bool) (s : jsstring) :
  drop_trailing p (drop_trailing p s) = drop_trailing p s.
Proof.
  induction s as [|c r IH]; [reflexivity|].
  cbn [drop_trailing].
  destruct (drop_trailing p r) as [|d t] eqn:E.
  - destruct (p c) eqn:Hc; [reflexivity|]. simpl. rewrite Hc. reflexivity.
  - cbn [drop_trailing]. cbn [drop_trailing] in IH.
    destruct (drop_trailing p t) as [|d' t'].
    + destruct (p d); [discriminate|]. rewrite IH. reflexivity.
    + rewrite IH. reflexivity.
Qed.

Lemma trim_idem (s : jsstring) : trim (trim s) = trim s.
Proof.
  unfold trim, trimStart, trimEnd.
  destruct (drop_leading isWhiteSpace s) as [|c r] eqn:E; [reflexivity|].
  pose proof (drop_leading_head _ s c r E) as Hc.
  rewrite (drop_trailing_cons_keep _ c r Hc).
  cbn [drop_leading]. rewrite Hc.
  rewrite <- (drop_trailing_cons_keep _ c r Hc). apply drop_trailing_idem.
Qed.

(** X5: a name the method returns has no white space at its ends: trimming
    it again changes nothing. *)
Theorem resolved_name_is_trimmed (u placeName : jsstring) :
  parseGoogleMapsUrl u = inr placeName -> trim placeName = placeName.
Proof.
  destruct (URL_ctor (cleanUrl u)) as [e0|urlObj] eqn:Hu.
  - unfold parseGoogleMapsUrl. rewrite Hu. simpl.
    destruct (includes _ _); discriminate.
  - rewrite (parseGoogleMapsUrl_parsed u urlObj Hu).
    unfold extract_place_name.
    destruct (negb _); [discriminate|].
    destruct (first_result _) as [e|found] eqn:Hf; simpl; [discriminate|].
    destruct found as [x|].
    + intros H. injection H as <-.
      destruct (first_result_trimmed _ _ Hf) as [r ->]. apply trim_idem.
    + destruct (includes _ _); [|discriminate].
      intros H. injection H as <-. reflexivity.
Qed.

End ResolverMore.

Lemma unsupported_host_rejected_witness :
  URL_ctor (Platform := Node.platform) (cleanUrl other_site)
  = inr (mkURL (js "example.com") (js "/not-google-maps") []) /\
  parseGoogleMapsUrl (platform := Node.platform) other_site = inl not_a_maps_url.
Proof.
  split; [vm_compute; reflexivity|].
  apply (unsupported_host_rejected (platform := Node.platform) other_site
           (mkURL (js "example.com") (js "/not-google-maps") []));
    vm_compute; reflexivity.
Defined.

Lemma resolver_errors_witness :
  parseGoogleMapsUrl (platform := Node.platform) (js "invalid-url") = inl not_a_url /\
  (not_a_url = not_a_url \/ not_a_url = not_a_maps_url \/
   not_a_url = no_place_name \/ not_a_url = uri_malformed \/
   (URL_ctor (Platform := Node.platform) (cleanUrl (js "invalid-url"))
    = inl not_a_url /\
    includes (message not_a_url) (js "Invalid URL") = false)).
Proof.
  split; [vm_compute; reflexivity|].
  apply (resolver_errors (platform := Node.platform) (js "invalid-url")).
  vm_compute; reflexivity.
Defined.

Lemma place_segment_has_priority_witness :
  parseGoogleMapsUrl (platform := Node.platform) place_and_query
  = inr (js "Cafe Roma").
Proof.
  apply (place_segment_has_priority (platform := Node.platform) place_and_query
           (mkURL (js "maps.google.com") (js "/maps/place/Cafe+Roma")
                  (js "?q=Other+Name"))
           (js "Cafe+Roma") (js "Cafe+Roma"));
    try (vm_compute; reflexivity).
  discriminate.
Defined.

Lemma short_link_always_resolves_witness :
  includes (js "maps.app.goo.gl") (js "maps.app.goo.gl") = true /\
  ((exists placeName,
      parseGoogleMapsUrl (platform := Node.platform) short_link = inr placeName) \/
   parseGoogleMapsUrl (platform := Node.platform) short_link = inl uri_malformed).
Proof.
  split; [reflexivity|].
  apply (short_link_always_resolves (platform := Node.platform) short_link
           (mkURL (js "maps.app.goo.gl") (js "/abc123") []));
    vm_compute; reflexivity.
Defined.

Lemma resolved_name_is_trimmed_witness :
  parseGoogleMapsUrl (platform := Node.platform) place_and_query
  = inr (js "Cafe Roma") /\
  trim (js "Cafe Roma") = js "Cafe Roma".
Proof.
  split; [vm_compute; reflexivity|].
  apply (resolved_name_is_trimmed (platform := Node.platform) place_and_query).
  vm_compute; reflexivity.
Defined.

(** ** [findPlace] *)

(** X6: [findPlace] fails in six ways and no other: the request fails; the
    body of a response that is not ok cannot be read; a response that is not
    ok has status 403 (access denied) or another status (reported with the
    status); the body of an ok response cannot be parsed; or it lists no
    place (reported with the query). *)
Theorem findPlace_errors (search : jsstring -> M SearchResponse)
  (query : jsstring) (e : exn) :
  findPlace search query = inl e ->
  search query = inl e \/
  exists response,
    search query = inr response /\
    ((search_ok response = false /\
      (search_text response = inl e \/
       (search_status response = 403%N /\ e = access_denied) \/
       (search_status response <> 403%N /\
        e = find_failed (search_status response)))) \/
     (search_ok response = true /\
      (search_json response = inl e \/
       exists data, search_json response = inr data /\
                    first_place data = None /\ e = no_results query))).
Proof.
  unfold findPlace, bind.
  destruct (search query) as [e0|response];
    [intros H; left; inversion H; reflexivity|].
  intros H. right. exists response. split; [reflexivity|].
  destruct (search_ok response); cbn [negb] in H.
  - right. split; [reflexivity|].
    destruct (search_json response) as [e1|data];
      [left; inversion H; reflexivity|].
    right. exists data. split; [reflexivity|].
    destruct (first_place data); [discriminate|].
    inversion H. split; reflexivity.
  - left. split; [reflexivity|].
    destruct (search_text response) as [e1|errorText];
      [left; inversion H; reflexivity|].
    right. destruct (N.eqb_spec (search_status response) 403) as [E|E];
      inversion H; auto.
Qed.

(** X7: of the places an ok response lists only the first counts: its id,
    rating and rating count are returned; the name returned is its display
    name when that name is present and not empty, and the query otherwise;
    so the name returned is not empty unless the query is. *)
Theorem findPlace_uses_first_place (search : jsstring -> M SearchResponse)
  (query : jsstring) (response : SearchResponse) (place : PlaceJson)
  (others : list PlaceJson) :
  search query = inr response ->
  search_ok response = true ->
  search_json response = inr (mkSearchData (Some (place :: others))) ->
  exists record,
    findPlace search query = inr record /\
    id record = place_id place /\
    place_record_rating record = place_rating place /\
    reviewCount record = place_userRatingCount place /\
    (forall text, optional_text (place_displayName place) = Some text ->
                  text <> [] -> place_name record = text) /\
    (optional_text (place_displayName place) = None \/
     optional_text (place_displayName place) = Some [] ->
     place_name record = query) /\
    (query <> [] -> place_name record <> []).
Proof.
  intros Hs Hok Hj. unfold findPlace, bind. rewrite Hs, Hok, Hj.
  cbn [negb first_place places]. eexists. split; [reflexivity|].
  cbn [id place_record_rating reviewCount place_name].
  split; [reflexivity|]. split; [reflexivity|]. split; [reflexivity|].
  unfold str_or, if_truthy.
  destruct (optional_text (place_displayName place)) as [[|c r]|];
    cbn [nonempty].
  - split; [|split]; [intros text H Hne; congruence | reflexivity | auto].
  - split; [|split].
    + intros text H _. congruence.
    + intros [H | H]; discriminate.
    + discriminate.
  - split; [|split]; [intros text H; discriminate | reflexivity | auto].
Qed.

Lemma findPlace_errors_witness :
  findPlace denied_search (js "Cafe") = inl access_denied /\
  findPlace empty_search (js "Cafe") = inl (no_results (js "Cafe")) /\
  (denied_search (js "Cafe") = inl access_denied \/
   exists response,
     denied_search (js "Cafe") = inr response /\
     ((search_ok response = false /\
       (search_text response = inl access_denied \/
        (search_status response = 403%N /\ access_denied = access_denied) \/
        (search_status response <> 403%N /\
         access_denied = find_failed (search_status response)))) \/
      (search_ok response = true /\
       (search_json response = inl access_denied \/
        exists data, search_json response = inr data /\
                     first_place data = None /\
                     access_denied = no_results (js "Cafe"))))).
Proof.
  split; [reflexivity|]. split; [reflexivity|].
  apply (findPlace_errors denied_search (js "Cafe") access_denied).
  reflexivity.
Defined.

Lemma findPlace_uses_first_place_witness :
  (exists record,
     findPlace sample_search (js "Cafe") = inr record /\
     id record = js "abc" /\
     place_name record = js "Cafe Location") /\
  (exists record,
     findPlace nameless_search (js "Cafe") = inr record /\
     id record = js "xyz" /\
     place_name record = js "Cafe").
Proof.
  split.
  - destruct (findPlace_uses_first_place sample_search (js "Cafe")
                (search_answer [sample_place; nameless_place])
                sample_place [nameless_place] eq_refl eq_refl eq_refl)
      as (record & Hr & Hi & _ & _ & Hn & _).
    exists record. split; [exact Hr|]. split; [exact Hi|].
    apply Hn; [reflexivity | discriminate].
  - destruct (findPlace_uses_first_place nameless_search (js "Cafe")
                (search_answer [nameless_place]) nameless_place []
                eq_refl eq_refl eq_refl)
      as (record & Hr & Hi & _ & _ & _ & Hq & _).
    exists record. split; [exact Hr|]. split; [exact Hi|].
    apply Hq. left. reflexivity.
Defined.

(** ** [getPlaceReviews]: errors and invariants of a batch *)

Lemma In_firstn {A} (n : nat) (l : list A) (x : A) :
  In x (firstn n l) -> In x l.
Proof.
  intros H. rewrite <- (firstn_skipn n l). apply in_or_app. left. exact H.
Qed.

(** X8: [getPlaceReviews] fails in four ways and no other: the request
    fails; the response is not ok (reported with its status, whatever its
    body); the body cannot be parsed; or no review is long enough. *)
Theorem getPlaceReviews_errors (cfg : Config) (fetch : jsstring -> M Response)
  (placeId : jsstring) (e : exn) :
  getPlaceReviews cfg fetch placeId = inl e ->
  fetch (details_url placeId) = inl e \/
  exists response,
    fetch (details_url placeId) = inr response /\
    ((ok response = false /\ e = reviews_failed (status response)) \/
     (ok response = true /\
      (json response = inl e \/
       exists data, json response = inr data /\ e = no_reviews_error /\
                    firstn (maxReviews cfg)
                      (filter substantial
                         (map map_review (reviews_or_empty data))) = []))).
Proof.
  unfold getPlaceReviews, details_url, bind.
  destruct (fetch _) as [e0|response];
    [intros H; left; inversion H; reflexivity|].
  intros H. right. exists response. split; [reflexivity|].
  destruct (ok response); cbn [negb] in H.
  - right. split; [reflexivity|].
    destruct (json response) as [e1|data];
      [left; inversion H; reflexivity|].
    right. exists data. split; [reflexivity|].
    unfold reviews_of in H.
    destruct (firstn _ _) as [|r kept]; [|discriminate].
    inversion H. split; reflexivity.
  - left. split; [reflexivity|]. inversion H. reflexivity.
Qed.

(** X9: in a batch every review has a text longer than 10 units and comes
    from a raw review of the response; the batch holds at least one review,
    at most [maxReviews], and never more than the response listed. *)
Theorem batch_invariants (cfg : Config) (fetch : jsstring -> M Response)
  (placeId : jsstring) (batch : ReviewBatch) :
  getPlaceReviews cfg fetch placeId = inr batch ->
  exists response data,
    fetch (details_url placeId) = inr response /\
    json response = inr data /\
    Forall (fun r => 10 < length (text r) /\
                     exists raw, In raw (reviews_or_empty data) /\
                                 r = map_review raw)
           (reviews batch) /\
    1 <= totalFound batch <= maxReviews cfg /\
    totalFound batch <= totalAvailable batch.
Proof.
  intros H.
  destruct (getPlaceReviews_inv cfg fetch placeId batch H)
    as (response & data & Hf & _ & Hj & Hr).
  exists response, data. split; [exact Hf|]. split; [exact Hj|].
  pose proof (reviews_of_ok cfg data batch Hr) as Hb. cbv zeta in Hb.
  unfold reviews_of in Hr.
  set (raw := reviews_or_empty data) in *.
  set (kept := firstn (maxReviews cfg) (filter substantial (map map_review raw))) in *.
  assert (Hlen : length kept <> 0).
  { destruct (Nat.eqb_spec (length kept) 0); [discriminate | assumption]. }
  assert (Hmax : length kept <= maxReviews cfg).
  { subst kept. rewrite length_firstn. lia. }
  assert (Hraw : length kept <= length raw).
  { subst kept. rewrite length_firstn.
    pose proof (filter_length_le substantial (map map_review raw)) as Hle.
    rewrite length_map in Hle. lia. }
  rewrite Hb. cbn [reviews totalFound totalAvailable].
  split; [|lia].
  apply Forall_forall. intros r Hin.
  apply In_firstn, filter_In in Hin. destruct Hin as [Hin Hsub].
  split.
  - apply Nat.ltb_lt. exact Hsub.
  - apply in_map_iff in Hin. destruct Hin as (x & <- & Hx).
    exists x. auto.
Qed.

(** X10: [limitApplied] compares the raw count with [maxReviews], not the
    count that was kept: when it is false nothing was cut off, but it is
    also true when short reviews alone bring the reviews kept down to
    [maxReviews] or fewer, and then nothing was cut off either. *)
Theorem limit_flag_counts_raw_reviews (cfg : Config)
  (fetch : jsstring -> M Response) (placeId : jsstring) (batch : ReviewBatch) :
  getPlaceReviews cfg fetch placeId = inr batch ->
  exists response data,
    fetch (details_url placeId) = inr response /\
    json response = inr data /\
    let raw := reviews_or_empty data in
    let kept := filter substantial (map map_review raw) in
    (limitApplied batch = false -> reviews batch = kept) /\
    (length kept <= maxReviews cfg < length raw ->
     limitApplied batch = true /\ reviews batch = kept).
Proof.
  intros H.
  destruct (getPlaceReviews_inv cfg fetch placeId batch H)
    as (response & data & Hf & _ & Hj & Hr).
  exists response, data. split; [exact Hf|]. split; [exact Hj|].
  rewrite (reviews_of_ok cfg data batch Hr).
  cbv zeta. cbn [reviews limitApplied].
  pose proof (filter_length_le substantial
                (map map_review (reviews_or_empty data))) as Hle.
  rewrite length_map in Hle.
  split.
  - intros Hlim. apply Nat.ltb_ge in Hlim. apply firstn_all2. lia.
  - intros [Hk Hm]. split; [apply Nat.ltb_lt; exact Hm|].
    apply firstn_all2. exact Hk.
Qed.

Lemma getPlaceReviews_errors_witness :
  getPlaceReviews config failing_fetch (js "abc") = inl (reviews_failed 500) /\
  (failing_fetch (details_url (js "abc")) = inl (reviews_failed 500) \/
   exists response,
     failing_fetch (details_url (js "abc")) = inr response /\
     ((ok response = false /\ reviews_failed 500 = reviews_failed (status response)) \/
      (ok response = true /\
       (json response = inl (reviews_failed 500) \/
        exists data, json response = inr data /\
                     reviews_failed 500 = no_reviews_error /\
                     firstn (maxReviews config)
                       (filter substantial
                          (map map_review (reviews_or_empty data))) = [])))).
Proof.
  split; [reflexivity|].
  apply (getPlaceReviews_errors config failing_fetch (js "abc")).
  reflexivity.
Defined.

Lemma batch_invariants_witness :
  getPlaceReviews config sample_fetch (js "abc") = inr sample_batch /\
  exists response data,
    sample_fetch (details_url (js "abc")) = inr response /\
    json response = inr data /\
    Forall (fun r => 10 < length (text r) /\
                     exists raw, In raw (reviews_or_empty data) /\
                                 r = map_review raw)
           (reviews sample_batch) /\
    1 <= totalFound sample_batch <= 50 /\
    totalFound sample_batch <= totalAvailable sample_batch.
Proof.
  split; [reflexivity|].
  apply (batch_invariants config sample_fetch (js "abc") sample_batch).
  reflexivity.
Defined.

Lemma limit_flag_counts_raw_reviews_witness :
  getPlaceReviews config mostly_short_fetch (js "abc") = inr mostly_short_batch /\
  exists response data,
    mostly_short_fetch (details_url (js "abc")) = inr response /\
    json response = inr data /\
    (limitApplied mostly_short_batch = false ->
     reviews mostly_short_batch =
     filter substantial (map map_review (reviews_or_empty data))) /\
    (length (filter substantial (map map_review (reviews_or_empty data)))
     <= 50 < length (reviews_or_empty data) ->
     limitApplied mostly_short_batch = true /\
     reviews mostly_short_batch =
     filter substantial (map map_review (reviews_or_empty data))).
Proof.
  split; [vm_compute; reflexivity|].
  apply (limit_flag_counts_raw_reviews config mostly_short_fetch (js "abc")
           mostly_short_batch).
  vm_compute; reflexivity.
Defined.

(** ** [analyzeReviews]: the prompt, the fences and the match *)

(** X11: the prompt is built from the first twenty reviews: review lists
    that agree on them give the same prompt, so no later review reaches the
    provider. *)
Theorem prompt_uses_first_twenty {platform : Platform}
  (placeName : option jsstring) (reviews1 reviews2 : list Review) :
  firstn 20 reviews1 = firstn 20 reviews2 ->
  prompt placeName reviews1 = prompt placeName reviews2 /\
  prompt placeName reviews1 = prompt placeName (firstn 20 reviews1).
Proof.
  intros H. unfold prompt, reviewTexts. split.
  - rewrite H. reflexivity.
  - rewrite firstn_firstn. reflexivity.
Qed.

Lemma prompt_uses_first_twenty_witness :
  firstn 20 many_reviews = firstn 20 many_reviews' /\
  prompt (platform := Node.platform) None many_reviews =
  prompt (platform := Node.platform) None many_reviews'.
Proof.
  split; [reflexivity|].
  apply (prompt_uses_first_twenty (platform := Node.platform) None
           many_reviews many_reviews').
  reflexivity.
Defined.

Lemma upto_last_close_none (s : jsstring) :
  upto_last_close s = None -> ~ In 125%N s.
Proof.
  induction s as [|x r IH]; simpl; [tauto|].
  destruct (upto_last_close r); [discriminate|].
  destruct (N.eqb_spec x 125); [discriminate|].
  intros _ [H | H]; [congruence | exact (IH eq_refl H)].
Qed.

Lemma upto_last_close_extent (s p : jsstring) :
  upto_last_close s = Some p ->
  exists b c, s = p ++ c /\ p = b ++ [125%N] /\ ~ In 125%N c.
Proof.
  revert p. induction s as [|x r IH]; simpl; [discriminate|].
  intros p. destruct (upto_last_close r) as [q|] eqn:E.
  - intros H. injection H as <-.
    destruct (IH q eq_refl) as (b & c & Hr & Hq & Hc).
    exists (x :: b), c. subst r q. repeat split; auto.
  - destruct (N.eqb_spec x 125); [|discriminate].
    intros H. injection H as <-. subst x.
    exists [], r. repeat split. apply upto_last_close_none. exact E.
Qed.

Lemma jsonMatch_none_after (s : jsstring) :
  upto_last_close s = None -> jsonMatch s = None.
Proof.
  induction s as [|x r IH]; simpl; [reflexivity|].
  destruct (upto_last_close r); [discriminate|].
  destruct (x =? 125)%N; [discriminate|].
  intros _. rewrite (IH eq_refl). destruct (x =? 123)%N; reflexivity.
Qed.

(** X12: what the pattern extracts runs from the first opening brace of the
    text to its last closing brace: before it the text has no opening brace,
    after it no closing brace. *)
Theorem jsonMatch_extent (s m : jsstring) :
  jsonMatch s = Some m ->
  exists a b c,
    s = a ++ m ++ c /\ m = [123%N] ++ b ++ [125%N] /\
    ~ In 123%N a /\ ~ In 125%N c.
Proof.
  induction s as [|x r IH]; simpl; [discriminate|].
  assert (Hskip : x <> 123%N -> jsonMatch r = Some m ->
          exists a b c, x :: r = a ++ m ++ c /\ m = [123%N] ++ b ++ [125%N] /\
                        ~ In 123%N a /\ ~ In 125%N c).
  { intros Hx H. destruct (IH H) as (a & b & c & Hr & Hm & Ha & Hc).
    exists (x :: a), b, c. rewrite Hr. repeat split; auto.
    intros [E | E]; [congruence | exact (Ha E)]. }
  destruct (N.eqb_spec x 123) as [E | E]; [|exact (Hskip E)].
  destruct (upto_last_close r) as [body|] eqn:Hb.
  - intros H. injection H as <-.
    destruct (upto_last_close_extent r body Hb) as (b & c & Hr & Hbody & Hc).
    exists [], b, c. subst x r body. repeat split; auto.
  - rewrite (jsonMatch_none_after r Hb). discriminate.
Qed.

Lemma jsonMatch_extent_witness :
  jsonMatch broken_response = Some (js "{oops}") /\
  exists a b c,
    broken_response = a ++ js "{oops}" ++ c /\
    js "{oops}" = [123%N] ++ b ++ [125%N] /\
    ~ In 123%N a /\ ~ In 125%N c.
Proof.
  split; [reflexivity|].
  apply (jsonMatch_extent broken_response (js "{oops}")). reflexivity.
Defined.

Lemma drop_leading_app_all (p : N -> bool) (ws x : jsstring) :
  Forall (fun c => p c = true) ws ->
  drop_leading p (ws ++ x) = drop_leading p x.
Proof.
  induction 1 as [|w ws Hw _ IH]; simpl; [reflexivity|].
  rewrite Hw. exact IH.
Qed.

Lemma drop_trailing_all (p : N -> bool) (ws : jsstring) :
  Forall (fun c => p c = true) ws -> drop_trailing p ws = [].
Proof.
  induction 1 as [|w ws Hw _ IH]; simpl; [reflexivity|].
  rewrite IH, Hw. reflexivity.
Qed.

Lemma drop_trailing_app_all (p : N -> bool) (x ws : jsstring) :
  Forall (fun c => p c = true) ws ->
  drop_trailing p (x ++ ws) = drop_trailing p x.
Proof.
  intros H. induction x as [|c x IH]; simpl.
  - apply drop_trailing_all. exact H.
  - rewrite IH. reflexivity.
Qed.

Lemma drop_trailing_app_keep (p : N -> bool) (x : jsstring) (c : N) :
  p c = false -> drop_trailing p (x ++ [c]) = x ++ [c].
Proof.
  intros Hc. induction x as [|d x IH]; simpl.
  - rewrite Hc. reflexivity.
  - rewrite IH. destruct (x ++ [c]) eqn:E; [|reflexivity].
    destruct x; discriminate.
Qed.

Lemma firstn_app_length {A} (x y : list A) :
  firstn (length (x ++ y) - length y) (x ++ y) = x.
Proof.
  rewrite length_app, Nat.add_sub.
  induction x as [|a x IH]; simpl.
  - destruct y; reflexivity.
  - rewrite IH. reflexivity.
Qed.

Lemma endsWith_app (x t : jsstring) : endsWith (x ++ t) t = true.
Proof. unfold endsWith. rewrite rev_app_distr. apply startsWith_app. Qed.

Lemma startsWith_shorter (s p q : jsstring) :
  startsWith s (p ++ q) = true -> startsWith s p = true.
Proof.
  revert s. induction p as [|a p IH]; intros s; simpl; [reflexivity|].
  destruct s as [|b s]; [discriminate|].
  destruct (a =? b)%N; simpl; [apply IH | discriminate].
Qed.

(** A string that [trim] leaves alone is left alone at either end. *)
Lemma trim_fixed (s : jsstring) :
  trim s = s -> trimStart s = s /\ trimEnd s = s.
Proof.
  unfold trim, trimStart, trimEnd. intros H.
  destruct (drop_leading_suffix isWhiteSpace s) as [a Ha].
  destruct (drop_trailing_prefix isWhiteSpace (drop_leading isWhiteSpace s))
    as [c Hc].
  rewrite H in Hc.
  assert (Hlen : length s = length a + (length s + length c)).
  { rewrite Ha at 1. rewrite length_app. rewrite Hc at 1.
    rewrite length_app. reflexivity. }
  assert (a = []) by (destruct a; [reflexivity | simpl in Hlen; lia]).
  assert (c = []) by (destruct c; [reflexivity | simpl in Hlen; lia]).
  subst a c. rewrite app_nil_r in Hc. simpl in Ha.
  split; [congruence|]. rewrite <- Ha in H. exact H.
Qed.

Lemma closing_fence_removed (body ws : jsstring) :
  Forall (fun c => isWhiteSpace c = true) ws ->
  trimEnd body = body ->
  remove_closing_fence (body ++ ws ++ js "```") = body.
Proof.
  intros Hws Hb. unfold remove_closing_fence.
  rewrite app_assoc, endsWith_app.
  change 3 with (length (js "```")). rewrite firstn_app_length.
  unfold trimEnd in *. rewrite drop_trailing_app_all; assumption.
Qed.

Lemma fenced_is_trimmed (tag rest : jsstring) :
  trim (96%N :: tag ++ rest ++ js "```") = 96%N :: tag ++ rest ++ js "```".
Proof.
  assert (E : 96%N :: tag ++ rest ++ js "```"
              = (96%N :: tag ++ rest ++ js "``") ++ [96%N]).
  { simpl. rewrite <- !app_assoc. reflexivity. }
  unfold trim, trimStart, trimEnd. cbn [drop_leading].
  change (isWhiteSpace 96) with false. cbv iota.
  rewrite E. apply drop_trailing_app_keep. reflexivity.
Qed.

Lemma skipn_app_length {A} (x y : list A) : skipn (length x) (x ++ y) = y.
Proof. induction x as [|a x IH]; simpl; [reflexivity | exact IH]. Qed.

(** The two replacements of the source on a fenced text. *)
Lemma fence_removed (tag ws1 ws2 body : jsstring) :
  Forall (fun c => isWhiteSpace c = true) ws1 ->
  Forall (fun c => isWhiteSpace c = true) ws2 ->
  body <> [] -> trimStart body = body -> trimEnd body = body ->
  remove_closing_fence
    (remove_first (tag ++ ws1 ++ body ++ ws2 ++ js "```") tag) = body.
Proof.
  intros H1 H2 Hne Hs He.
  rewrite (remove_first_at_start _ _ (startsWith_app tag _)).
  rewrite skipn_app_length. unfold trimStart.
  rewrite (drop_leading_app_all _ ws1 _ H1).
  destruct body as [|c r] eqn:Hb; [congruence|].
  pose proof (drop_leading_head _ _ _ _ Hs) as Hc.
  cbn [app drop_leading]. rewrite Hc.
  apply (closing_fence_removed (c :: r) ws2 H2 He).
Qed.

Lemma whitespace_is_not_j (w : N) : isWhiteSpace w = true -> (106 =? w)%N = false.
Proof.
  intros H. destruct (N.eqb_spec 106 w) as [<- | _]; [|reflexivity].
  vm_compute in H. discriminate.
Qed.

Lemma json_fence_removed (ws1 ws2 body : jsstring) :
  Forall (fun c => isWhiteSpace c = true) ws1 ->
  Forall (fun c => isWhiteSpace c = true) ws2 ->
  body <> [] ->
  trim body = body ->
  startsWith body (js "```") = false ->
  cleanResponse (js "```json" ++ ws1 ++ body ++ ws2 ++ js "```") = body.
Proof.
  intros H1 H2 Hne Ht Hf.
  destruct (trim_fixed body Ht) as [Hs He].
  unfold cleanResponse.
  change (js "```json" ++ ws1 ++ body ++ ws2 ++ js "```")
    with (96%N :: js "``json" ++ (ws1 ++ body ++ ws2 ++ js "```")).
  replace (ws1 ++ body ++ ws2 ++ js "```")
    with ((ws1 ++ body ++ ws2) ++ js "```")
    by (rewrite <- !app_assoc; reflexivity).
  rewrite fenced_is_trimmed.
  replace ((ws1 ++ body ++ ws2) ++ js "```")
    with (ws1 ++ body ++ ws2 ++ js "```")
    by (rewrite <- !app_assoc; reflexivity).
  change (96%N :: js "``json" ++ (ws1 ++ body ++ ws2 ++ js "```"))
    with (js "```json" ++ ws1 ++ body ++ ws2 ++ js "```").
  rewrite (startsWith_app (js "```json")).
  rewrite (fence_removed (js "```json") ws1 ws2 body H1 H2 Hne Hs He).
  rewrite Hf. reflexivity.
Qed.

(** X13: a response that is a text between code fences, with or without
    the tag [json] (white space after the opening fence, if there is no tag,
    and possibly before the closing one), is cleaned to that text; a text
    without fences is cleaned to itself.  The text is any non-empty text with
    no white space at its ends that does not itself start with a fence. *)
Theorem fence_unwrapped (ws1 ws2 body : jsstring) :
  Forall (fun c => isWhiteSpace c = true) ws1 ->
  Forall (fun c => isWhiteSpace c = true) ws2 ->
  body <> [] ->
  trim body = body ->
  startsWith body (js "```") = false ->
  cleanResponse (js "```json" ++ ws1 ++ body ++ ws2 ++ js "```") = body /\
  (ws1 <> [] ->
   cleanResponse (js "```" ++ ws1 ++ body ++ ws2 ++ js "```") = body) /\
  cleanResponse body = body.
Proof.
  intros H1 H2 Hne Ht Hf.
  destruct (trim_fixed body Ht) as [Hs He].
  split; [|split].
  - apply json_fence_removed; assumption.
  - intros Hw. unfold cleanResponse.
    change (js "```" ++ ws1 ++ body ++ ws2 ++ js "```")
      with (96%N :: js "``" ++ (ws1 ++ body ++ ws2 ++ js "```")).
    replace (ws1 ++ body ++ ws2 ++ js "```")
      with ((ws1 ++ body ++ ws2) ++ js "```")
      by (rewrite <- !app_assoc; reflexivity).
    rewrite fenced_is_trimmed.
    replace ((ws1 ++ body ++ ws2) ++ js "```")
      with (ws1 ++ body ++ ws2 ++ js "```")
      by (rewrite <- !app_assoc; reflexivity).
    change (96%N :: js "``" ++ (ws1 ++ body ++ ws2 ++ js "```"))
      with (js "```" ++ ws1 ++ body ++ ws2 ++ js "```").
    assert (Hj : startsWith (js "```" ++ ws1 ++ body ++ ws2 ++ js "```")
                            (js "```json") = false).
    { destruct H1 as [|w ws1' Hwsp _]; [congruence|].
      cbn -[N.eqb]. rewrite (whitespace_is_not_j w Hwsp). reflexivity. }
    rewrite Hj. rewrite (startsWith_app (js "```")).
    apply (fence_removed (js "```") ws1 ws2 body H1 H2 Hne Hs He).
  - unfold cleanResponse. rewrite Ht.
    assert (Hj : startsWith body (js "```json") = false).
    { destruct (startsWith body (js "```json")) eqn:E; [|reflexivity].
      rewrite <- Hf. symmetry.
      apply (startsWith_shorter body (js "```") (js "json")). exact E. }
    rewrite Hj, Hf. reflexivity.
Qed.

Lemma fence_unwrapped_witness :
  cleanResponse (js "```json" ++ newline ++ object_text ++ newline ++ js "```")
  = object_text /\
  (newline <> [] ->
   cleanResponse (js "```" ++ newline ++ object_text ++ newline ++ js "```")
   = object_text) /\
  cleanResponse object_text = object_text.
Proof.
  apply (fence_unwrapped newline newline object_text);
    try (repeat constructor); try reflexivity.
  discriminate.
Defined.

Lemma upto_last_close_end (b : jsstring) :
  upto_last_close (b ++ [125%N]) = Some (b ++ [125%N]).
Proof.
  induction b as [|x b IH]; simpl; [reflexivity|].
  simpl in IH. rewrite IH. reflexivity.
Qed.

Lemma trim_between (c d : N) (x : jsstring) :
  isWhiteSpace c = false -> isWhiteSpace d = false ->
  trim (c :: x ++ [d]) = c :: x ++ [d].
Proof.
  intros Hc Hd. unfold trim, trimStart, trimEnd. cbn [drop_leading].
  rewrite Hc. apply (drop_trailing_app_keep isWhiteSpace (c :: x) d Hd).
Qed.

(** X14: when the provider answers with a brace-delimited text between
    code fences tagged [json], exactly that text is given to [JSON.parse]:
    the method returns what parsing and validating it gives, and the
    fallback result if either step throws. *)
Theorem fenced_object_is_parsed {platform : Platform}
  (ai : jsstring -> M jsstring) (placeName : option jsstring)
  (reviews : list Review) (ws1 ws2 inner : jsstring) :
  let object := [123%N] ++ inner ++ [125%N] in
  Forall (fun c => isWhiteSpace c = true) ws1 ->
  Forall (fun c => isWhiteSpace c = true) ws2 ->
  ai (prompt placeName reviews)
  = inr (js "```json" ++ ws1 ++ object ++ ws2 ++ js "```") ->
  analyzeReviews ai placeName reviews =
  try_catch (analysis <- JSON_parse object ;; validatedAnalysis analysis)
            (fun error => ret (generateFallbackAnalysis placeName reviews)).
Proof.
  intros object H1 H2 Ha.
  assert (Hc : cleanResponse (js "```json" ++ ws1 ++ object ++ ws2 ++ js "```")
               = object).
  { apply (json_fence_removed ws1 ws2 object H1 H2).
    - discriminate.
    - apply (trim_between 123 125 inner); reflexivity.
    - reflexivity. }
  assert (Hm : jsonMatch object = Some object).
  { subst object. cbn [app jsonMatch]. rewrite N.eqb_refl.
    rewrite upto_last_close_end. reflexivity. }
  unfold analyzeReviews, primary_analysis. rewrite Ha. cbn [bind].
  rewrite Hc, Hm. reflexivity.
Qed.

Lemma fenced_object_is_parsed_witness :
  analyzeReviews (platform := Node.platform) (answering neutral_response)
    None sample_reviews =
  inr {| overallSentiment := JString (js "neutral");
         topicSummaries := JArray [];
         keyInsights := JArray [JString (js "Mostly fine")];
         commonPhrases := JArray [];
         customerPainPoints := JArray [];
         positiveHighlights := JArray [];
         recommendations := JArray [] |}.
Proof.
  apply (fenced_object_is_parsed (platform := Node.platform)
           (answering neutral_response) None sample_reviews newline newline
           (js' "'overallSentiment': 'neutral', 'keyInsights': ['Mostly fine']")).
  - repeat constructor.
  - repeat constructor.
  - vm_compute. reflexivity.
Defined.

(** ** [generateFallbackAnalysis]: keywords and edge cases *)

Section FallbackMore.
Context {platform : Platform}.

Lemma filter_found {A} (f : A -> bool) (l : list A) :
  (Forall (fun x => f x <> true) l -> filter f l = []) /\
  (Exists (fun x => f x = true) l -> filter f l <> []).
Proof.
  split.
  - intros H. apply filter_nil_Forall.
    apply Forall_impl with (2 := H). intros x Hx.
    destruct (f x); congruence.
  - intros H E. apply filter_nil_Forall in E.
    apply Exists_exists in H. destruct H as (x & Hin & Hx).
    rewrite Forall_forall in E. specialize (E x Hin). congruence.
Qed.

Lemma firstn_S_nonempty {A} (n : nat) (l : list A) :
  l <> [] -> firstn (S n) l <> [].
Proof. destruct l; [congruence | discriminate]. Qed.

(** X15: the common phrases of a fallback result are never empty.  When
    no keyword of the fixed positive list occurs in the lower-cased texts
    they are the placeholder alone; when one does they are keywords of that
    list, each of which occurs in the texts.  Likewise the pain points, the
    negative list and its placeholder. *)
Theorem reported_keywords_occur (placeName : option jsstring)
  (reviews : list Review) :
  let result := generateFallbackAnalysis placeName reviews in
  let occurs word := includes (allText reviews) word in
  (exists phrases,
     commonPhrases result = strings_of phrases /\ phrases <> [] /\
     (Forall (fun w => occurs w <> true) commonWords ->
      phrases = [js "N/A"]) /\
     (Exists (fun w => occurs w = true) commonWords ->
      Forall (fun w => In w commonWords /\ occurs w = true) phrases)) /\
  (exists points,
     customerPainPoints result = strings_of points /\ points <> [] /\
     (Forall (fun w => occurs w <> true) negativeWords ->
      points = [js "No major pain points identified"]) /\
     (Exists (fun w => occurs w = true) negativeWords ->
      Forall (fun w => In w negativeWords /\ occurs w = true) points)).
Proof.
  cbv zeta. unfold generateFallbackAnalysis, strings_of.
  cbn [commonPhrases customerPainPoints]. split.
  - destruct (filter_found (fun w => includes (allText reviews) w) commonWords)
      as [Hnone Hsome].
    fold (foundPositive reviews) in Hnone, Hsome.
    destruct (foundPositive reviews) as [|w ws] eqn:E.
    + exists [js "N/A"]. split; [reflexivity|]. split; [discriminate|].
      split; [reflexivity|]. intros H. elim (Hsome H). reflexivity.
    + exists (firstn 5 (w :: ws)). split; [reflexivity|].
      split; [apply firstn_S_nonempty; discriminate|]. split.
      * intros H. specialize (Hnone H). discriminate.
      * intros _. apply Forall_forall. intros x Hx. apply In_firstn in Hx.
        rewrite <- E in Hx. unfold foundPositive in Hx.
        apply filter_In in Hx. exact Hx.
  - destruct (filter_found (fun w => includes (allText reviews) w) negativeWords)
      as [Hnone Hsome].
    fold (foundNegative reviews) in Hnone, Hsome.
    destruct (foundNegative reviews) as [|w ws] eqn:E.
    + exists [js "No major pain points identified"].
      split; [reflexivity|]. split; [discriminate|].
      split; [reflexivity|]. intros H. elim (Hsome H). reflexivity.
    + exists (firstn 3 (w :: ws)). split; [reflexivity|].
      split; [apply firstn_S_nonempty; discriminate|]. split.
      * intros H. specialize (Hnone H). discriminate.
      * intros _. apply Forall_forall. intros x Hx. apply In_firstn in Hx.
        rewrite <- E in Hx. unfold foundNegative in Hx.
        apply filter_In in Hx. exact Hx.
Qed.

Lemma unrated_counts (reviews : list Review) :
  Forall (fun r => rating r = None) reviews ->
  positiveReviews reviews = 0 /\ negativeReviews reviews = length reviews.
Proof.
  unfold positiveReviews, negativeReviews.
  induction 1 as [|r rs Hr _ [IHp IHn]]; [split; reflexivity|].
  assert (E : rating_or_0 r = 0%float) by (unfold rating_or_0; rewrite Hr; reflexivity).
  cbn [filter]. rewrite E.
  change (PrimFloat.leb 4 0) with false. change (PrimFloat.leb 0 2) with true.
  cbn [length]. split; [exact IHp | f_equal; exact IHn].
Qed.

(** X16: reviews without ratings count as rated 0: a non-empty list of
    unrated reviews is labelled "negative" by the fallback, whatever the
    texts say.  For an empty list the label is "mixed" and the average is
    printed as [NaN]. *)
Theorem fallback_edge_cases (placeName : option jsstring) :
  (forall reviews,
     reviews <> [] ->
     Forall (fun r => rating r = None) reviews ->
     overallSentiment (generateFallbackAnalysis placeName reviews)
     = JString (js "negative")) /\
  overallSentiment (generateFallbackAnalysis placeName []) = JString (js "mixed") /\
  exists others,
    keyInsights (generateFallbackAnalysis placeName [])
    = JArray (JString (js "Average rating: NaN/5 stars") :: others).
Proof.
  split; [|split].
  - intros reviews Hne Hall.
    destruct (unrated_counts reviews Hall) as [Hp Hn].
    cbn [generateFallbackAnalysis overallSentiment]. unfold sentiment.
    rewrite Hp, Hn. destruct reviews as [|r rs]; [congruence|].
    reflexivity.
  - reflexivity.
  - eexists. reflexivity.
Qed.

End FallbackMore.

Lemma reported_keywords_occur_witness :
  commonPhrases
    (generateFallbackAnalysis (platform := Node.platform) None plain_reviews)
  = strings_of [js "N/A"] /\
  customerPainPoints
    (generateFallbackAnalysis (platform := Node.platform) None plain_reviews)
  = strings_of [js "No major pain points identified"] /\
  exists phrases,
    commonPhrases
      (generateFallbackAnalysis (platform := Node.platform) None sample_reviews)
    = strings_of phrases /\ phrases <> [] /\
    Forall (fun w => In w commonWords /\
                     includes (allText (platform := Node.platform) sample_reviews) w
                     = true)
           phrases.
Proof.
  split; [|split].
  - destruct (proj1 (reported_keywords_occur (platform := Node.platform)
                       None plain_reviews))
      as (phrases & Hp & _ & Hnone & _).
    rewrite Hp. f_equal. apply Hnone.
    repeat (constructor; [vm_compute; discriminate|]). constructor.
  - destruct (proj2 (reported_keywords_occur (platform := Node.platform)
                       None plain_reviews))
      as (points & Hp & _ & Hnone & _).
    rewrite Hp. f_equal. apply Hnone.
    repeat (constructor; [vm_compute; discriminate|]). constructor.
  - destruct (proj1 (reported_keywords_occur (platform := Node.platform)
                       None sample_reviews))
      as (phrases & Hp & Hne & _ & Hsome).
    exists phrases. split; [exact Hp|]. split; [exact Hne|].
    apply Hsome. apply Exists_cons_hd. vm_compute. reflexivity.
Defined.

Lemma fallback_edge_cases_witness :
  unrated_reviews <> [] /\
  Forall (fun r => rating r = None) unrated_reviews /\
  overallSentiment
    (generateFallbackAnalysis (platform := Node.platform) None unrated_reviews)
  = JString (js "negative").
Proof.
  split; [discriminate|]. split; [repeat constructor|].
  apply (proj1 (fallback_edge_cases (platform := Node.platform) None)).
  - discriminate.
  - repeat constructor.
Defined.

(** ** The route [POST /api/analyze] *)

Section RouteMore.
Import Server.
Context {platform : Platform}.
Variable search : jsstring -> M SearchResponse.
Variable fetch : jsstring -> M Response.
Variable ai : jsstring -> M jsstring.
Variable now : jsstring.

Lemma batch_bounds (cfg : Config) (placeId : jsstring) (batch : ReviewBatch) :
  getPlaceReviews cfg fetch placeId = inr batch ->
  totalFound batch = length (reviews batch) /\
  1 <= totalFound batch <= maxReviews cfg /\
  totalFound batch <= totalAvailable batch.
Proof.
  intros H.
  destruct (getPlaceReviews_inv cfg fetch placeId batch H)
    as (response & data & _ & _ & _ & Hr).
  pose proof (reviews_of_ok cfg data batch Hr) as Hb. cbv zeta in Hb.
  unfold reviews_of in Hr.
  set (raw := reviews_or_empty data) in *.
  set (kept := firstn (maxReviews cfg) (filter substantial (map map_review raw))) in *.
  assert (Hlen : length kept <> 0).
  { destruct (Nat.eqb_spec (length kept) 0); [discriminate | assumption]. }
  assert (Hmax : length kept <= maxReviews cfg).
  { subst kept. rewrite length_firstn. lia. }
  assert (Hraw : length kept <= length raw).
  { subst kept. rewrite length_firstn.
    pose proof (filter_length_le substantial (map map_review raw)) as Hle.
    rewrite length_map in Hle. lia. }
  rewrite Hb. cbn [reviews totalFound totalAvailable]. lia.
Qed.

Lemma pipeline_inv (u : jsstring) (place : PlaceRecord) (batch : ReviewBatch)
  (analysis : AnalysisResult) :
  pipeline search fetch ai u = inr (place, batch, analysis) ->
  exists placeName,
    parseGoogleMapsUrl u = inr placeName /\
    findPlace search placeName = inr place /\
    getPlaceReviews config fetch (id place) = inr batch /\
    analyzeReviews ai (name batch) (reviews batch) = inr analysis.
Proof.
  unfold pipeline, bind.
  destruct (parseGoogleMapsUrl u) as [e|placeName]; [discriminate|].
  cbn beta iota.
  destruct (findPlace search placeName) as [e|place'] eqn:Hf; [discriminate|].
  cbn beta iota.
  destruct (getPlaceReviews config fetch (id place')) as [e|batch'] eqn:Hg;
    [discriminate|].
  cbn beta iota.
  destruct (analyzeReviews ai (name batch') (reviews batch')) as [e|analysis'] eqn:Ha;
    [discriminate|].
  cbn beta iota. unfold ret. intros H. injection H as -> -> ->.
  exists placeName. repeat split; auto.
Qed.

(** X17: the route answers 200 only when the link resolved, the place was
    found and a batch of reviews was fetched.  The body then carries the
    record of the place and the counts of the batch, with
    [reviewsAnalyzed] the number of reviews given to the analysis (between
    1 and 50, and never more than were available), the analysis has its six
    lists, and the batch becomes the stashed review data. *)
Theorem route_success (stash stash' : option ReviewBatch)
  (url : option jsstring) (response : HttpResponse) :
  analyze_route search fetch ai now stash url = (response, stash') ->
  http_status response = 200%N ->
  exists u placeName place batch analysis,
    url = Some u /\
    parseGoogleMapsUrl u = inr placeName /\
    findPlace search placeName = inr place /\
    getPlaceReviews config fetch (id place) = inr batch /\
    analyzeReviews ai (name batch) (reviews batch) = inr analysis /\
    well_formed analysis /\
    body response =
      Success (place_name place) (place_record_rating place) (reviewCount place)
              (length (reviews batch)) (length (reviews batch))
              (totalAvailable batch) (limitApplied batch) analysis /\
    1 <= length (reviews batch) <= 50 /\
    length (reviews batch) <= totalAvailable batch /\
    stash' = Some batch.
Proof.
  unfold analyze_route. intros H Hs.
  destruct (if_truthy url) as [u|] eqn:Hu.
  2:{ injection H as <- <-. discriminate Hs. }
  assert (url = Some u) as ->.
  { destruct url as [v|]; [|discriminate]. cbn [if_truthy] in Hu.
    destruct (nonempty v); [congruence | discriminate]. }
  destruct (pipeline search fetch ai u) as [e|[[place batch] analysis]] eqn:Hp.
  { injection H as <- <-. discriminate Hs. }
  injection H as <- <-.
  destruct (pipeline_inv u place batch analysis Hp) as (placeName & H1 & H2 & H3 & H4).
  destruct (batch_bounds config (id place) batch H3) as (Hlen & Hb & Ha).
  change (maxReviews config) with 50 in Hb.
  destruct (analyzeReviews_well_formed ai (name batch) (reviews batch))
    as (r & Hr & Hw).
  assert (r = analysis) as -> by congruence.
  exists u, placeName, place, batch, analysis.
  cbn [body]. rewrite <- Hlen.
  split; [reflexivity|]. split; [exact H1|]. split; [exact H2|].
  split; [exact H3|]. split; [exact H4|]. split; [exact Hw|].
  split; [reflexivity|]. split; [exact Hb|]. split; [exact Ha|]. reflexivity.
Qed.

(** X18: a request without a link (or with an empty one) is answered 400
    with the fixed error and hint.  Otherwise the first step that throws
    decides the answer: status 400, the message of that error and the time
    of the answer, and the stashed review data stays as it was.  The
    analysis step never makes a request fail: when the first three steps
    succeed the answer is 200, whatever the provider of the analysis
    does. *)
Theorem route_reports_first_error (stash : option ReviewBatch) (u : jsstring) :
  u <> [] ->
  let run := analyze_route search fetch ai now stash in
  let failed e := (mkHttpResponse 400 (Failure (message e) now), stash) in
  let missing :=
    (mkHttpResponse 400 (MissingUrl (js "URL is required")
                                    (js "Please provide a Google Maps URL")),
     stash) in
  run None = missing /\ run (Some []) = missing /\
  (forall e, parseGoogleMapsUrl u = inl e -> run (Some u) = failed e) /\
  (forall placeName e,
     parseGoogleMapsUrl u = inr placeName ->
     findPlace search placeName = inl e -> run (Some u) = failed e) /\
  (forall placeName place e,
     parseGoogleMapsUrl u = inr placeName ->
     findPlace search placeName = inr place ->
     getPlaceReviews config fetch (id place) = inl e ->
     run (Some u) = failed e) /\
  (forall placeName place batch,
     parseGoogleMapsUrl u = inr placeName ->
     findPlace search placeName = inr place ->
     getPlaceReviews config fetch (id place) = inr batch ->
     http_status (fst (run (Some u))) = 200%N /\
     snd (run (Some u)) = Some batch).
Proof.
  intros Hu. cbv zeta.
  split; [reflexivity|]. split; [reflexivity|].
  assert (Ht : if_truthy (Some u) = Some u).
  { destruct u; [congruence | reflexivity]. }
  unfold analyze_route. rewrite Ht. unfold pipeline, bind.
  split; [|split; [|split]].
  - intros e ->. reflexivity.
  - intros placeName e ->. cbn beta iota. intros ->. reflexivity.
  - intros placeName place e ->. cbn beta iota. intros ->. cbn beta iota.
    intros ->. reflexivity.
  - intros placeName place batch ->. cbn beta iota. intros ->. cbn beta iota.
    intros ->. cbn beta iota.
    destruct (analyzeReviews_well_formed ai (name batch) (reviews batch))
      as (r & -> & _).
    split; reflexivity.
Qed.

End RouteMore.

Lemma route_success_witness :
  let answer := Server.analyze_route (platform := Node.platform)
                  sample_search sample_fetch failing_ai request_time
                  None (Some search_link) in
  Server.http_status (fst answer) = 200%N /\
  exists u placeName place batch analysis,
    Some search_link = Some u /\
    parseGoogleMapsUrl (platform := Node.platform) u = inr placeName /\
    findPlace sample_search placeName = inr place /\
    getPlaceReviews config sample_fetch (id place) = inr batch /\
    analyzeReviews (platform := Node.platform) failing_ai (name batch) (reviews batch)
    = inr analysis /\
    well_formed analysis /\
    Server.body (fst answer) =
      Server.Success (place_name place) (place_record_rating place)
                     (reviewCount place)
                     (length (reviews batch)) (length (reviews batch))
                     (totalAvailable batch) (limitApplied batch) analysis /\
    1 <= length (reviews batch) <= 50 /\
    length (reviews batch) <= totalAvailable batch /\
    snd answer = Some batch.
Proof.
  cbv zeta. split; [vm_compute; reflexivity|].
  apply (route_success (platform := Node.platform)
           sample_search sample_fetch failing_ai request_time None).
  - vm_compute. reflexivity.
  - vm_compute. reflexivity.
Defined.

Lemma route_reports_first_error_witness :
  other_site <> [] /\
  Server.analyze_route (platform := Node.platform)
    sample_search sample_fetch failing_ai request_time
    (Some sample_batch) (Some other_site)
  = (Server.mkHttpResponse 400
       (Server.Failure (js "Please provide a valid Google Maps URL") request_time),
     Some sample_batch).
Proof.
  split; [discriminate|].
  apply (proj1 (proj2 (proj2
           (route_reports_first_error (platform := Node.platform)
              sample_search sample_fetch failing_ai request_time
              (Some sample_batch) other_site ltac:(discriminate))))
           not_a_maps_url).
  vm_compute. reflexivity.
Defined.
